(** * Material take-off of the gray-structure calculator

    A shallow embedding of [src/utils/calculations.ts] (with the data model of
    [src/types.ts]) and the properties of its bill of materials.

    Numbers.  The inputs, quantities and prices are JavaScript numbers.  The
    program is embedded once, over an interface [Number] of the operations it
    uses, and read at two instances:
    - exact rationals [Q], the real numbers of the data model, on which the
      arithmetic properties are proved for every input;
    - IEEE-754 binary64 (Rocq's primitive floats), the doubles the code
      computes with, on which the sign properties (prices, non-negative
      quantities) are proved for every double and the program is evaluated
      at concrete inputs.

    State.  [calculateMaterials] allocates an array, appends to it through the
    closure [addMat], reads its two object arguments and returns the array.
    The embedding runs it in a state monad over a store that holds the two
    argument objects and the array.

    Around it.  The pure parts of the component [src/App.tsx] (the state
    updates of its handlers, the total cost, the grouping of the table, the
    exported texts) and of [src/services/geminiService.ts] (the prices mapped
    back to ids, the sources of the suppliers) are embedded as functions of
    the values they read; the requests to the service and the rendering are
    not part of the embedding. *)

From stdpp Require Import gmap strings list.
From Stdlib Require Import QArith Qround Qminmax Lqa Floats.

Local Open Scope string_scope.
Local Open Scope list_scope.
Local Open Scope Q_scope.

(** ** JavaScript numbers *)

Class Number (N : Type) : Type := {
  (** a numeric literal, given by its decimal value *)
  lit : Q -> N;
  num_add : N -> N -> N;
  num_sub : N -> N -> N;
  num_mul : N -> N -> N;
  num_div : N -> N -> N;
  (** [Math.ceil] *)
  Math_ceil : N -> N;
  (** [Math.max] of two numbers *)
  Math_max : N -> N -> N;
  (** the truthiness of a number, as [||] tests it *)
  ToBoolean : N -> bool
}.

Arguments lit {N _} _%_Q.

Declare Scope num_scope.
Delimit Scope num_scope with num.
Infix "+" := num_add : num_scope.
Infix "-" := num_sub : num_scope.
Infix "*" := num_mul : num_scope.
Infix "/" := num_div : num_scope.

(** ** Data model ([src/types.ts]) *)

Inductive ConstructionSystem : Set :=
  | TRADITIONAL
  | SIP
  | STEEL_FRAME
  | WOOD_FRAME
  | METAL_PANEL.

Record UserInputs (N : Type) : Type := {
  plateArea : N;
  wallHeight : N;
  wallPerimeter : N;
  windowArea : N;
  doorCount : N
}.

Arguments plateArea {N} _.
Arguments wallHeight {N} _.
Arguments wallPerimeter {N} _.
Arguments windowArea {N} _.
Arguments doorCount {N} _.

Inductive Category : Set := Platea | Muros | Aberturas | Techo.

Record MaterialItem (N : Type) : Type := {
  id : string;
  name : string;
  unit : string;
  quantity : N;
  unitPrice : N;
  category : Category
}.

Arguments id {N} _.
Arguments name {N} _.
Arguments unit {N} _.
Arguments quantity {N} _.
Arguments unitPrice {N} _.
Arguments category {N} _.

(** ** The store and its monad *)

Record Store (N : Type) : Type := {
  inputs : UserInputs N;
  currentPrices : gmap string N;
  materials : list (MaterialItem N)
}.

Arguments inputs {N} _.
Arguments currentPrices {N} _.
Arguments materials {N} _.

Definition M (N A : Type) : Type := Store N -> A * Store N.

#[global] Instance M_ret {N} : MRet (M N) := fun A (a : A) st => (a, st).

#[global] Instance M_bind {N} : MBind (M N) :=
  fun A B (k : A -> M N B) (c : M N A) st => let '(a, st') := c st in k a st'.

(** [const materials = []] *)
Definition newMaterials {N} : M N () :=
  fun st => (tt, {| inputs := inputs st; currentPrices := currentPrices st;
                    materials := [] |}).

(** [const { ... } = inputs] *)
Definition readInputs {N} : M N (UserInputs N) := fun st => (inputs st, st).

(** [currentPrices[id]]: [None] is JavaScript's [undefined]. *)
Definition readPrice {N} (k : string) : M N (option N) :=
  fun st => (currentPrices st !! k, st).

(** [materials.push(item)] *)
Definition push {N} (item : MaterialItem N) : M N () :=
  fun st => (tt, {| inputs := inputs st; currentPrices := currentPrices st;
                    materials := materials st ++ [item] |}).

(** [return materials] *)
Definition readMaterials {N} : M N (list (MaterialItem N)) :=
  fun st => (materials st, st).

(** The double quote of the names that hold inch marks. *)
Definition dq : string :=
  String (Ascii.Ascii false true false false false true false false) EmptyString.

(** ** [addMat] and [calculateMaterials] ([src/utils/calculations.ts]) *)

Section Program.
Context {N : Type} `{Number N}.
Local Open Scope num_scope.

(** [a || b] where [a] is a number or [undefined]. *)
Definition or_default (a : option N) (b : N) : N :=
  match a with
  | Some p => if ToBoolean p then p else b
  | None => b
  end.

(** [Math.ceil(qty * 100) / 100] *)
Definition finalQty (qty : N) : N := Math_ceil (qty * lit 100) / lit 100.

Definition grossWallArea (i : UserInputs N) : N := wallPerimeter i * wallHeight i.

(** [Math.max(0, grossWallArea - windowArea - (doorCount * 2))] *)
Definition netWallArea (i : UserInputs N) : N :=
  Math_max (lit 0) (grossWallArea i - windowArea i - (doorCount i * lit 2)).

Definition addMat (id name unit : string) (qty : N) (cat : Category)
    (defaultPrice : N) : M N () :=
  p ← readPrice id;
  push {| id := id; name := name; unit := unit;
          quantity := finalQty qty;
          unitPrice := or_default p defaultPrice;
          category := cat |}.

(** The [switch (system)] of [calculateMaterials]. *)
Definition wallMaterials (system : ConstructionSystem) (i : UserInputs N) : M N () :=
  let plateArea := plateArea i in
  let wallHeight := wallHeight i in
  let wallPerimeter := wallPerimeter i in
  let windowArea := windowArea i in
  let netWallArea := netWallArea i in
  match system with
  | TRADITIONAL =>
      addMat "brick_hollow" "Ladrillo Hueco 18x18x33" "unidades" (netWallArea * lit 15.5) Muros (lit 950) ;;
      addMat "mortar_mix" "Mortero Asiento (Premezcla)" "kg" (netWallArea * lit 25) Muros (lit 350) ;;
      addMat "plaster_mix" "Revoque Listo (Interior/Ext)" "kg" (netWallArea * lit 35) Muros (lit 450) ;;
      addMat "roof_struct_metal" "Perfil C Galv. 100x50x15x2mm" "ml" (plateArea * lit 1.5) Techo (lit 10500)
  | SIP =>
      addMat "sip_panel" "Panel SIP 122x244cm (Espesor std)" "unidades" ((netWallArea / lit 2.97) * lit 1.1) Muros (lit 120000) ;;
      addMat "sip_screws" "Tornillos SIP (Caja)" "unidades" (netWallArea * lit 10) Muros (lit 250) ;;
      addMat "osb_95" "Placa OSB 9.5mm (Exterior)" "m²" (netWallArea * lit 1.05) Muros (lit 9500) ;;
      addMat "roof_struct_wood" ("Tirantes Madera 2" +:+ dq +:+ "x6" +:+ dq +:+ " (Estructura Techo)") "ml" (plateArea * lit 1.5) Techo (lit 7500)
  | STEEL_FRAME =>
      let montantesCount := Math_ceil (wallPerimeter / lit 0.40) in
      let montantesLength := montantesCount * wallHeight in
      addMat "pgc_100" "Perfil PGC 100x40x0.9mm (Montantes)" "ml" (montantesLength * lit 1.05) Muros (lit 8500) ;;
      let solerasLength := (wallPerimeter * lit 2) + (windowArea * lit 2) in
      addMat "pgu_100" "Perfil PGU 100x35x0.9mm (Soleras)" "ml" (solerasLength * lit 1.05) Muros (lit 7200) ;;
      addMat "osb_95" "Placa OSB 9.5mm (Rigidización)" "m²" (netWallArea * lit 1.05) Muros (lit 9500) ;;
      addMat "insul_wall" "Lana de Vidrio (Muro)" "m²" (netWallArea * lit 1.05) Muros (lit 6500) ;;
      addMat "screw_t1" "Tornillos T1 Punta Mecha" "unidades" (netWallArea * lit 30) Muros (lit 45) ;;
      addMat "roof_struct_metal" "Perfil C Galv. 100x50x15x2mm" "ml" (plateArea * lit 1.5) Techo (lit 10500)
  | WOOD_FRAME =>
      let studsCount := Math_ceil (wallPerimeter / lit 0.40) in
      let studsLength := studsCount * wallHeight in
      addMat "wood_2x4" ("Tirante Pino 2" +:+ dq +:+ "x4" +:+ dq +:+ " (Estructura)") "ml" ((studsLength + (wallPerimeter * lit 2)) * lit 1.1) Muros (lit 4500) ;;
      addMat "siding_wood" ("Machimbre 3/4" +:+ dq +:+ " (19mm) Exterior") "m²" (netWallArea * lit 1.1) Muros (lit 8500) ;;
      addMat "insul_wall" "Lana de Vidrio (Muro)" "m²" (netWallArea * lit 1.05) Muros (lit 6500) ;;
      addMat "roof_struct_wood" ("Tirantes Madera 2" +:+ dq +:+ "x6" +:+ dq +:+ " (Estructura Techo)") "ml" (plateArea * lit 1.5) Techo (lit 7500)
  | METAL_PANEL =>
      addMat "metal_panel_wall" "Panel Sándwich Poliuretano (Muro)" "m²" (netWallArea * lit 1.05) Muros (lit 65000) ;;
      let cols := Math_ceil (wallPerimeter / lit 3) in
      addMat "tube_100x100" "Tubo Estructural 100x100x2.0mm" "ml" (cols * wallHeight) Muros (lit 18000) ;;
      addMat "tube_100x50" "Tubo Estructural 100x50x2.0mm" "ml" (wallPerimeter * lit 2) Muros (lit 12000) ;;
      addMat "screw_panel" "Tornillos para Panel" "unidades" (netWallArea * lit 8) Muros (lit 250) ;;
      addMat "roof_struct_metal" "Perfil C Galv. 100x50x15x2mm" "ml" (plateArea * lit 1.5) Techo (lit 10500)
  end.

(** The body of [calculateMaterials], run against the store of the call. *)
Definition calculateMaterialsM (system : ConstructionSystem)
    : M N (list (MaterialItem N)) :=
  newMaterials ;;
  i ← readInputs;
  (* A. PLATEA (Common) *)
  addMat "conc_h17" "Hormigón H17 Elaborado" "m³" (plateArea i * lit 0.12) Platea (lit 180000) ;;
  addMat "mesh_steel" "Malla Acero Simag (15x15) 5.5mm" "m²" (plateArea i * lit 1.10) Platea (lit 8500) ;;
  addMat "poly_film" "Film Polietileno 200 micrones" "m²" (plateArea i * lit 1.10) Platea (lit 1200) ;;
  (* B. MUROS (System Specific) *)
  wallMaterials system i ;;
  (* C. ABERTURAS *)
  addMat "win_dvh" "Ventanas DVH (Aluminio/PVC)" "m²" (windowArea i) Aberturas (lit 250000) ;;
  addMat "door_ext" "Puerta Exterior Seguridad" "unidades" (doorCount i) Aberturas (lit 350000) ;;
  (* D. TECHO (Common requirements logic) *)
  addMat "roof_sheet" "Chapa Sinusoidal Galv. N°25" "m²" (plateArea i * lit 1.15) Techo (lit 22000) ;;
  addMat "insul_roof" "Aislante Térmico (Espuma+Alum)" "m²" (plateArea i * lit 1.15) Techo (lit 6500) ;;
  addMat "screw_roof" "Tornillo Autoperforante Chapa (con arandela)" "unidades" (plateArea i * lit 6) Techo (lit 120) ;;
  readMaterials.

(** A call: the store holds the two argument objects; the array of an earlier
    call, if any, is not part of it. *)
Definition calculateMaterials (i : UserInputs N) (system : ConstructionSystem)
    (prices : gmap string N) : list (MaterialItem N) :=
  fst (calculateMaterialsM system
         {| inputs := i; currentPrices := prices; materials := [] |}).

(** An input record whose fields are the numbers of five decimal texts. *)
Definition inputsOf (i : UserInputs Q) : UserInputs N :=
  {| plateArea := lit (plateArea i); wallHeight := lit (wallHeight i);
     wallPerimeter := lit (wallPerimeter i); windowArea := lit (windowArea i);
     doorCount := lit (doorCount i) |}.

End Program.

(** ** Exact arithmetic *)

(** [Math.ceil(x)] as a number. *)
Definition Qceil (x : Q) : Q := inject_Z (Qceiling x).

(** Only zero is falsy. *)
Definition Qtruthy (x : Q) : bool := negb (Qeq_bool x 0).

#[global] Instance Q_Number : Number Q := {|
  lit := fun q => q;
  num_add := Qplus;
  num_sub := Qminus;
  num_mul := Qmult;
  num_div := Qdiv;
  Math_ceil := Qceil;
  Math_max := Qmax;
  ToBoolean := Qtruthy
|}.

(** ** Double arithmetic *)

(** The double nearest to a decimal: the correctly rounded quotient of its
    numerator and denominator, which are below 2^53 for every literal used. *)
Definition float_lit (q : Q) : float :=
  let n := PrimFloat.of_uint63 (Uint63.of_Z (Z.abs (Qnum q))) in
  let d := PrimFloat.of_uint63 (Uint63.of_Z (Zpos (Qden q))) in
  if (Qnum q <? 0)%Z then PrimFloat.opp (PrimFloat.div n d) else PrimFloat.div n d.

(** The double of an integer below 2^63 in absolute value. *)
Definition float_of_Z (z : Z) : float :=
  match z with
  | Z0 => PrimFloat.zero
  | Zpos _ => PrimFloat.of_uint63 (Uint63.of_Z z)
  | Zneg _ => PrimFloat.opp (PrimFloat.of_uint63 (Uint63.of_Z (- z)))
  end.

(** [Math.ceil]: the least integer not below [x]; infinities, NaN and zeros
    are kept, a double with no fractional bits (exponent [0 <= e]) is its own
    ceiling, and a result between -1 and 0 is the negative zero. *)
Definition float_ceil (x : float) : float :=
  match Prim2SF x with
  | S754_finite s m e =>
      if (0 <=? e)%Z then x
      else
        let n := cond_Zopp s (Zpos m) in
        let c := (- ((- n) / 2 ^ (- e)))%Z in
        match c with
        | Z0 => if s then PrimFloat.neg_zero else PrimFloat.zero
        | _ => float_of_Z c
        end
  | _ => x
  end.

(** [Math.max(a, b)]: NaN if either is NaN, and +0 above -0. *)
Definition float_max (a b : float) : float :=
  if PrimFloat.is_nan a || PrimFloat.is_nan b then PrimFloat.nan
  else if PrimFloat.ltb a b then b
  else if PrimFloat.ltb b a then a
  else if PrimFloat.get_sign a then b else a.

(** Zero, negative zero and NaN are falsy. *)
Definition float_truthy (x : float) : bool :=
  negb (PrimFloat.is_zero x || PrimFloat.is_nan x).

(** The real number a finite double stands for. *)
Definition float_value (x : float) : option Q :=
  match Prim2SF x with
  | S754_zero _ => Some 0
  | S754_finite s m e =>
      Some ((if s then - inject_Z (Zpos m) else inject_Z (Zpos m)) * Qpower 2 e)
  | _ => None
  end.

#[global] Instance float_Number : Number float := {|
  lit := float_lit;
  num_add := PrimFloat.add;
  num_sub := PrimFloat.sub;
  num_mul := PrimFloat.mul;
  num_div := PrimFloat.div;
  Math_ceil := float_ceil;
  Math_max := float_max;
  ToBoolean := float_truthy
|}.

(** Sign and finiteness of a double, read on its specification: [SFnonneg]
    is JavaScript's [x >= 0] (both zeros, positive numbers, +Infinity),
    [SFpos] is [x > 0], [SFfin] is [Number.isFinite], [SFposfin] a positive
    finite number. *)
Definition SFnonneg (x : spec_float) : bool :=
  match x with
  | S754_zero _ | S754_infinity false | S754_finite false _ _ => true
  | _ => false
  end.

Definition SFpos (x : spec_float) : bool :=
  match x with
  | S754_infinity false | S754_finite false _ _ => true
  | _ => false
  end.

Definition SFfin (x : spec_float) : bool :=
  match x with
  | S754_zero _ | S754_finite _ _ _ => true
  | _ => false
  end.

Definition SFposfin (x : spec_float) : bool :=
  match x with
  | S754_finite false _ _ => true
  | _ => false
  end.

(** A rounded result of sign [s]: a zero, an infinity or a finite number of
    that sign, not NaN. *)
Definition SFsigned (s : bool) (x : spec_float) : Prop :=
  match x with
  | S754_zero s' | S754_infinity s' | S754_finite s' _ _ => s' = s
  | S754_nan => False
  end.

Definition NN (x : float) : Prop := SFnonneg (Prim2SF x) = true.
Definition FIN (x : float) : Prop := SFfin (Prim2SF x) = true.
Definition LIT (c : float) : Prop := SFposfin (Prim2SF c) = true.

(** ** Tables read off the [addMat] calls *)

(** The ids pushed for each system, in push order. *)
Definition materialIds (system : ConstructionSystem) : list string :=
  ["conc_h17"; "mesh_steel"; "poly_film"] ++
  match system with
  | TRADITIONAL => ["brick_hollow"; "mortar_mix"; "plaster_mix"; "roof_struct_metal"]
  | SIP => ["sip_panel"; "sip_screws"; "osb_95"; "roof_struct_wood"]
  | STEEL_FRAME =>
      ["pgc_100"; "pgu_100"; "osb_95"; "insul_wall"; "screw_t1"; "roof_struct_metal"]
  | WOOD_FRAME => ["wood_2x4"; "siding_wood"; "insul_wall"; "roof_struct_wood"]
  | METAL_PANEL =>
      ["metal_panel_wall"; "tube_100x100"; "tube_100x50"; "screw_panel";
       "roof_struct_metal"]
  end ++
  ["win_dvh"; "door_ext"; "roof_sheet"; "insul_roof"; "screw_roof"].

(** The [defaultPrice] argument of the [addMat] call of each id. *)
Definition defaultPrices : list (string * Q) :=
  [("conc_h17", 180000); ("mesh_steel", 8500); ("poly_film", 1200);
   ("brick_hollow", 950); ("mortar_mix", 350); ("plaster_mix", 450);
   ("roof_struct_metal", 10500); ("sip_panel", 120000); ("sip_screws", 250);
   ("osb_95", 9500); ("roof_struct_wood", 7500); ("pgc_100", 8500);
   ("pgu_100", 7200); ("insul_wall", 6500); ("screw_t1", 45);
   ("wood_2x4", 4500); ("siding_wood", 8500); ("metal_panel_wall", 65000);
   ("tube_100x100", 18000); ("tube_100x50", 12000); ("screw_panel", 250);
   ("win_dvh", 250000); ("door_ext", 350000); ("roof_sheet", 22000);
   ("insul_roof", 6500); ("screw_roof", 120)].

Fixpoint assoc {A} (k : string) (l : list (string * A)) : option A :=
  match l with
  | [] => None
  | (k', a) :: l' => if String.eqb k k' then Some a else assoc k l'
  end.

Definition defaultPrice (k : string) : option Q := assoc k defaultPrices.

Definition member (k : string) (l : list string) : bool := existsb (String.eqb k) l.

(** The ids of the wall items whose quantity is a multiple of the net wall
    area: bricks, mortar, plaster, SIP panels and screws, sheathing and siding
    boards, wall insulation, fasteners, sandwich panels. *)
Definition netAreaIds : list string :=
  ["brick_hollow"; "mortar_mix"; "plaster_mix"; "sip_panel"; "sip_screws";
   "osb_95"; "insul_wall"; "screw_t1"; "siding_wood"; "metal_panel_wall";
   "screw_panel"].

(** The ids of the wall items computed from the perimeter, the height and the
    window area alone: studs, tracks, wood framing, columns, beams. *)
Definition framingIds : list string :=
  ["pgc_100"; "pgu_100"; "wood_2x4"; "tube_100x100"; "tube_100x50"].

(** ** The formula table of the specification

    The quantity formulas as the specification's section 4.1 writes them, in
    exact arithmetic, keyed by material id; [slabArea] is the specification's
    name of [plateArea].  They are compared with the quantities the code
    stores. *)

Definition specNetWallArea (i : UserInputs Q) : Q :=
  Qmax 0 (wallPerimeter i * wallHeight i - windowArea i - doorCount i * 2.0).

Definition specFormulas (i : UserInputs Q) (system : ConstructionSystem)
    : list (string * Q) :=
  let slabArea := plateArea i in
  let perimeter := wallPerimeter i in
  let height := wallHeight i in
  let net := specNetWallArea i in
  [("conc_h17", slabArea * 0.12);
   ("mesh_steel", slabArea * 1.10);
   ("poly_film", slabArea * 1.10);
   ("win_dvh", windowArea i);
   ("door_ext", doorCount i);
   ("roof_sheet", slabArea * 1.15);
   ("insul_roof", slabArea * 1.15);
   ("screw_roof", slabArea * 6)] ++
  match system with
  | TRADITIONAL =>
      [("brick_hollow", net * 15.5); ("mortar_mix", net * 25);
       ("plaster_mix", net * 35); ("roof_struct_metal", slabArea * 1.5)]
  | SIP =>
      [("sip_panel", (net / 2.97) * 1.10); ("sip_screws", net * 10);
       ("osb_95", net * 1.05); ("roof_struct_wood", slabArea * 1.5)]
  | STEEL_FRAME =>
      let studCount := inject_Z (Qceiling (perimeter / 0.40)) in
      let studTotalLength := studCount * height in
      [("pgc_100", studTotalLength * 1.05);
       ("pgu_100", (perimeter * 2 + windowArea i * 2) * 1.05);
       ("osb_95", net * 1.05); ("insul_wall", net * 1.05);
       ("screw_t1", net * 30); ("roof_struct_metal", slabArea * 1.5)]
  | WOOD_FRAME =>
      let studCount := inject_Z (Qceiling (perimeter / 0.40)) in
      let studLength := studCount * height in
      [("wood_2x4", (studLength + perimeter * 2) * 1.10);
       ("siding_wood", net * 1.10); ("insul_wall", net * 1.05);
       ("roof_struct_wood", slabArea * 1.5)]
  | METAL_PANEL =>
      let count := inject_Z (Qceiling (perimeter / 3)) in
      [("metal_panel_wall", net * 1.05); ("tube_100x100", count * height);
       ("tube_100x50", perimeter * 2); ("screw_panel", net * 8);
       ("roof_struct_metal", slabArea * 1.5)]
  end.

(** The ceiling of a raw value at the hundredths digit. *)
Definition roundedUp (raw : Q) : Q := inject_Z (Qceiling (raw * 100)) / 100.

(** ** Properties stated by the claims *)

(** The list is four contiguous category blocks, in the order Platea, Muros,
    Aberturas, Techo, none of them empty. *)
Definition fourBlocks {N} (l : list (MaterialItem N)) : Prop :=
  exists b1 b2 b3 b4 : list (MaterialItem N),
    l = b1 ++ b2 ++ b3 ++ b4 /\
    Forall (fun it => category it = Platea) b1 /\
    Forall (fun it => category it = Muros) b2 /\
    Forall (fun it => category it = Aberturas) b3 /\
    Forall (fun it => category it = Techo) b4 /\
    b1 <> [] /\ b2 <> [] /\ b3 <> [] /\ b4 <> [].


(** Every field of the record is a non-negative double. *)
Definition nonnegFields (i : UserInputs float) : Prop :=
  PrimFloat.leb zero (plateArea i) = true /\
  PrimFloat.leb zero (wallHeight i) = true /\
  PrimFloat.leb zero (wallPerimeter i) = true /\
  PrimFloat.leb zero (windowArea i) = true /\
  PrimFloat.leb zero (doorCount i) = true.

(** Non-negative fields give non-negative quantities, in double arithmetic. *)
Definition quantitiesNonneg (i : UserInputs float) (system : ConstructionSystem)
    (prices : gmap string float) : Prop :=
  nonnegFields i ->
  forall it, it ∈ calculateMaterials i system prices ->
    PrimFloat.leb zero (quantity it) = true.

(** ** Inputs of the examples *)

Definition ex_inputs : UserInputs Q :=
  {| plateArea := 60; wallHeight := 2.6; wallPerimeter := 40;
     windowArea := 8; doorCount := 2 |}.

(** [ex_inputs] with another plate area. *)
Definition ex_plate (a : Q) : UserInputs Q :=
  {| plateArea := a; wallHeight := 2.6; wallPerimeter := 40;
     windowArea := 8; doorCount := 2 |}.

(** Openings that cover more than the gross wall area. *)
Definition ex_openings : UserInputs Q :=
  {| plateArea := 60; wallHeight := 2.6; wallPerimeter := 10;
     windowArea := 30; doorCount := 2 |}.

(** Openings that cover the gross wall area exactly: 6.3 + 3 * 2 = 5 * 2.46. *)
Definition ex_boundary : UserInputs Q :=
  {| plateArea := 60; wallHeight := 2.46; wallPerimeter := 5;
     windowArea := 6.3; doorCount := 3 |}.

(** Finite non-negative doubles: a wall of height 0 whose perimeter, 2^1023,
    divided by the stud spacing 0.40 is beyond the range of doubles. *)
Definition ex_overflow : UserInputs float :=
  {| plateArea := 60%float; wallHeight := 0%float;
     wallPerimeter := 0x1p1023%float; windowArea := 8%float;
     doorCount := 2%float |}.

(** ** Strings of the language

    A text is the sequence of its UTF-8 bytes; for well-formed texts an
    occurrence of one text in another is an occurrence of its bytes, so that
    searching and replacing agree with the language's, which work on UTF-16
    code units. *)

(** [s.includes(search)]: [search] occurs in [s] at some position. *)
Fixpoint includes (s search : string) : bool :=
  if String.prefix search s then true
  else match s with
       | EmptyString => false
       | String _ s' => includes s' search
       end.

(** [s.replace(pattern, replacement)] for a pattern that is a string and a
    replacement without [$]: the first occurrence is replaced, no other. *)
Fixpoint replace (s pattern replacement : string) : string :=
  if String.prefix pattern s then
    replacement +:+ String.substring (String.length pattern)
                      (String.length s - String.length pattern) s
  else match s with
       | EmptyString => EmptyString
       | String c s' => String c (replace s' pattern replacement)
       end.

(** The line feed of the template literals. *)
Definition nl : string :=
  String (Ascii.Ascii false true false true false false false false) EmptyString.

(** ** The application ([src/App.tsx]) *)

#[global] Instance Category_eq_dec : EqDecision Category.
Proof. solve_decision. Defined.

(** The string values of the members of the enum [ConstructionSystem]
    ([src/types.ts]). *)
Definition systemValue (system : ConstructionSystem) : string :=
  match system with
  | TRADITIONAL => "Mampostería (Ladrillos)"
  | SIP => "Paneles SIP"
  | STEEL_FRAME => "Steel Frame"
  | WOOD_FRAME => "Wood Frame"
  | METAL_PANEL => "Paneles Termoaislantes Metálicos"
  end.

Section App.
Context {N : Type} `{Number N}.
Local Open Scope num_scope.

(** [useState<UserInputs>({ plateArea: 60, wallHeight: 2.6, ... })] *)
Definition initialInputs : UserInputs N :=
  {| plateArea := lit 60; wallHeight := lit 2.6; wallPerimeter := lit 40;
     windowArea := lit 8; doorCount := lit 2 |}.

(** [{ ...prev, [name]: v }], read on the five fields of [UserInputs]; any
    other name adds a property that no code reads. *)
Definition setField (name : string) (v : N) (prev : UserInputs N) : UserInputs N :=
  if String.eqb name "plateArea" then
    {| plateArea := v; wallHeight := wallHeight prev;
       wallPerimeter := wallPerimeter prev; windowArea := windowArea prev;
       doorCount := doorCount prev |}
  else if String.eqb name "wallHeight" then
    {| plateArea := plateArea prev; wallHeight := v;
       wallPerimeter := wallPerimeter prev; windowArea := windowArea prev;
       doorCount := doorCount prev |}
  else if String.eqb name "wallPerimeter" then
    {| plateArea := plateArea prev; wallHeight := wallHeight prev;
       wallPerimeter := v; windowArea := windowArea prev;
       doorCount := doorCount prev |}
  else if String.eqb name "windowArea" then
    {| plateArea := plateArea prev; wallHeight := wallHeight prev;
       wallPerimeter := wallPerimeter prev; windowArea := v;
       doorCount := doorCount prev |}
  else if String.eqb name "doorCount" then
    {| plateArea := plateArea prev; wallHeight := wallHeight prev;
       wallPerimeter := wallPerimeter prev; windowArea := windowArea prev;
       doorCount := v |}
  else prev.

(** [if (newPrices) setPrices(prev => ({ ...prev, ...newPrices }))] in
    [handlePriceUpdate]: [None] is [null]; an entry of [newPrices] replaces
    the entry of [prev]. *)
Definition mergePrices (newPrices : option (gmap string N)) (prev : gmap string N)
    : gmap string N :=
  match newPrices with
  | Some newPrices => newPrices ∪ prev
  | None => prev
  end.

(** [materials.reduce((acc, curr) => acc + (curr.quantity * curr.unitPrice), 0)] *)
Definition totalCost (materials : list (MaterialItem N)) : N :=
  fold_left (fun acc curr => acc + (quantity curr * unitPrice curr))
            materials (lit 0).

(** [materials.filter(m => m.category === cat)] *)
Definition catMaterials (cat : Category) (materials : list (MaterialItem N))
    : list (MaterialItem N) :=
  filter (fun m => category m = cat) materials.

(** The body of the table: for each category, in the order of the array
    literal, [null] ([None]) when no material has it, and else the header of
    the category with the rows of its materials. *)
Definition tableGroups (materials : list (MaterialItem N))
    : list (option (Category * list (MaterialItem N))) :=
  map (fun cat =>
         let catMaterials := catMaterials cat materials in
         if (length catMaterials =? 0)%nat then None
         else Some (cat, catMaterials))
      [Platea; Muros; Aberturas; Techo].

(** The material rows of the table, from top to bottom. *)
Definition tableRows (materials : list (MaterialItem N)) : list (MaterialItem N) :=
  concat (map (fun g => match g with Some (_, rows) => rows | None => [] end)
              (tableGroups materials)).

End App.

(** The two handlers that parse a text: [parseFloat] is the function of the
    language, any function from texts to doubles. *)
Section Handlers.
Variable parseFloat : string -> float.

(** [setInputs(prev => ({ ...prev, [name]: parseFloat(value) || 0 }))] *)
Definition handleInputChange (name value : string) (prev : UserInputs float)
    : UserInputs float :=
  setField name (or_default (Some (parseFloat value)) (lit 0)) prev.

(** [const val = parseFloat(newVal);
     if (!isNaN(val)) setPrices(prev => ({ ...prev, [id]: val }))] *)
Definition handleManualPriceChange (id newVal : string) (prev : gmap string float)
    : gmap string float :=
  let val := parseFloat newVal in
  if negb (PrimFloat.is_nan val) then <[id := val]> prev else prev.

End Handlers.

(** A double that the form may hold: not NaN, and not the negative zero. *)
Definition storable (x : float) : Prop :=
  PrimFloat.is_nan x = false /\ (PrimFloat.is_zero x = true -> x = zero).

(** [handleExportWhatsapp], up to the text it sends: [toString] is the
    text of a number in a template literal and [toLocaleString] the method
    of the language, any two functions from numbers to texts. *)
Section Exports.
Context {N : Type} `{Number N}.
Variable toString : N -> string.
Variable toLocaleString : N -> string.
Local Open Scope num_scope.

(** The body of [materials.forEach], on the variables [text] and [total]. *)
Definition whatsappLine (st : string * N) (m : MaterialItem N) : string * N :=
  let '(text, total) := st in
  let sub := quantity m * unitPrice m in
  let total := total + sub in
  let text :=
    text +:+ "- " +:+ name m +:+ ": " +:+ toString (quantity m) +:+ " " +:+
    unit m +:+ " x $" +:+ toLocaleString (unitPrice m) +:+ " = $" +:+
    toLocaleString sub +:+ nl in
  (text, total).

Definition whatsappText (selectedSystem : ConstructionSystem) (location : string)
    (inputs : UserInputs N) (materials : list (MaterialItem N)) : string :=
  let text := "*Estimación Obra Gris - " +:+ systemValue selectedSystem +:+ "*" +:+ nl in
  let text :=
    if negb (String.eqb location "")
    then text +:+ "Ubicación Ref: " +:+ location +:+ nl
    else text in
  let text := text +:+ nl +:+ "Superficie: " +:+ toString (plateArea inputs) +:+ "m²" +:+ nl in
  let text := text +:+ "Altura: " +:+ toString (wallHeight inputs) +:+ "m" +:+ nl +:+ nl in
  let text := text +:+ "*Materiales:*" +:+ nl in
  let '(text, total) := fold_left whatsappLine materials (text, lit 0) in
  text +:+ nl +:+ "*TOTAL ESTIMADO: ARS $" +:+ toLocaleString total +:+ "*".

(** The lines of the materials, one after the other. *)
Definition materialLines (materials : list (MaterialItem N)) : string :=
  fold_right
    (fun m rest =>
       "- " +:+ name m +:+ ": " +:+ toString (quantity m) +:+ " " +:+ unit m +:+
       " x $" +:+ toLocaleString (unitPrice m) +:+ " = $" +:+
       toLocaleString (quantity m * unitPrice m) +:+ nl +:+ rest)
    "" materials.

End Exports.

(** [a.download = `presupuesto_${selectedSystem.replace(' ', '_')}.txt`] in
    [handleExportTxt]. *)
Definition downloadName (selectedSystem : ConstructionSystem) : string :=
  "presupuesto_" +:+ replace (systemValue selectedSystem) " " "_" +:+ ".txt".

(** ** The service ([src/services/geminiService.ts]) *)

(** A value of a parsed JSON text, as [typeof] tells them apart; arrays and
    objects are of type ['object']. *)
Inductive JsonValue (N : Type) : Type :=
  | JNull
  | JBool (b : bool)
  | JNumber (n : N)
  | JString (s : string)
  | JObject.

Arguments JNull {N}.
Arguments JBool {N} _.
Arguments JNumber {N} _.
Arguments JString {N} _.
Arguments JObject {N}.

Section Service.
Context {N : Type}.

(** [Object.keys(pricesMap).find(k => k.includes(m.name) || m.name.includes(k))] *)
Definition findKey (pricesMap : list (string * JsonValue N)) (mname : string)
    : option string :=
  List.find (fun k => includes k mname || includes mname k) (map fst pricesMap).

(** The block "Map back to IDs" of [fetchMaterialPrices]: [pricesMap] is the
    parsed object, its entries in the order of [Object.keys]. *)
Definition idPriceMap (materials : list (MaterialItem N))
    (pricesMap : list (string * JsonValue N)) : gmap string N :=
  fold_left
    (fun idPriceMap m =>
       match findKey pricesMap (name m) with
       | Some key =>
           if negb (String.eqb key "") then
             match assoc key pricesMap with
             | Some (JNumber price) => <[id m := price]> idPriceMap
             | _ => idPriceMap
             end
           else idPriceMap
       | None => idPriceMap
       end)
    materials ∅.

(** The price that the callback of [materials.forEach] stores for a material
    of this name, if it stores one. *)
Definition matchedPrice (pricesMap : list (string * JsonValue N)) (mname : string)
    : option N :=
  match findKey pricesMap mname with
  | Some key =>
      if negb (String.eqb key "") then
        match assoc key pricesMap with
        | Some (JNumber price) => Some price
        | _ => None
        end
      else None
  | None => None
  end.

(** One step of [materials.forEach], in terms of [matchedPrice]. *)
Definition forEach_step (pricesMap : list (string * JsonValue N))
    (acc : gmap string N) (m : MaterialItem N) : gmap string N :=
  match matchedPrice pricesMap (name m) with
  | Some price => <[id m := price]> acc
  | None => acc
  end.

End Service.

(** A Map of the language: its entries in insertion order.  [m.set(k, v)]
    replaces the value of a key that is present, where it stands, and adds
    a new key at the end. *)
Fixpoint Map_set {V} (k : string) (v : V) (m : list (string * V))
    : list (string * V) :=
  match m with
  | [] => [(k, v)]
  | (k', v') :: m' =>
      if String.eqb k' k then (k', v) :: m' else (k', v') :: Map_set k v m'
  end.

(** The entries of the list set one after the other in the Map [m]. *)
Definition Map_fold {V} (entries : list (string * V)) (m : list (string * V))
    : list (string * V) :=
  fold_left (fun m e => Map_set (fst e) (snd e) m) entries m.

(** [new Map(entries)] *)
Definition Map_new {V} (entries : list (string * V)) : list (string * V) :=
  Map_fold entries [].

(** [Array.from(m.values())] *)
Definition Map_values {V} (m : list (string * V)) : list V := map snd m.

Module Grounding.

(** The [web] part of a grounding chunk as the service answers it: a field
    may be missing. *)
Record Web : Type := { uri : option string; title : option string }.

(** [GroundingChunk] *)
Record Chunk : Type := { web : option Web }.

(** An entry of [SupplierResult.sources]. *)
Record Source : Type := { source_title : string; source_uri : string }.

(** The truthiness of a text that may be missing. *)
Definition truthy (s : option string) : bool :=
  match s with
  | Some s => negb (String.eqb s "")
  | None => false
  end.

(** [chunks.map(c => c.web).filter(w => w && w.uri && w.title)] *)
Definition sources (chunks : list Chunk) : list Source :=
  omap (fun c =>
          match web c with
          | Some {| uri := Some u; title := Some t |} =>
              if truthy (Some u) && truthy (Some t)
              then Some {| source_title := t; source_uri := u |}
              else None
          | _ => None
          end) chunks.

(** [sources.map(s => [s.uri, s])] *)
Definition keyed (sources : list Source) : list (string * Source) :=
  map (fun s => (source_uri s, s)) sources.

(** [Array.from(new Map(sources.map(s => [s.uri, s])).values())] *)
Definition uniqueSources (sources : list Source) : list Source :=
  Map_values (Map_new (keyed sources)).

(** The [sources] field of the result of [findSuppliers]; [None] is a
    response without grounding chunks, read as [[]]. *)
Definition supplierSources (groundingChunks : option (list Chunk)) : list Source :=
  uniqueSources (sources (default [] groundingChunks)).

End Grounding.

(** ** The names of the materials *)

(** The names of a computed list, which depend on the system only. *)
Definition materialNames (system : ConstructionSystem) : list string :=
  map name (calculateMaterials (N:=Q) ex_inputs system ∅).

(** No name is empty, and no name of the list contains another name of the
    list. *)
Definition namesApart (names : list string) : bool :=
  forallb (fun a =>
             negb (String.eqb a "") &&
             forallb (fun b => implb (includes a b || includes b a) (String.eqb a b))
                     names)
          names.

(** ** Tactics *)

(** Runs the monadic body: the result becomes the explicit list of items. *)
Ltac run_calc :=
  cbv [calculateMaterials calculateMaterialsM wallMaterials addMat inputsOf
       mbind mret M_bind M_ret newMaterials readInputs readPrice push
       readMaterials fst snd app inputs currentPrices materials].

(** Reads the operations of [Number] at the exact instance. *)
Ltac exact_arith :=
  cbv [lit num_add num_sub num_mul num_div Math_ceil Math_max ToBoolean
       Q_Number] in *.

Ltac each_item := repeat first [apply Forall_nil_2 | apply Forall_cons_2].

(** A goal about every item of a list becomes a [Forall]. *)
Ltac by_items :=
  match goal with
  | |- forall it, it ∈ ?l -> @?P it => apply (proj1 (Forall_forall P l))
  end.

(** Division by a literal becomes multiplication by its inverse, computed,
    so that linear arithmetic applies. *)
Ltac inv_literals :=
  unfold Qdiv in *;
  repeat match goal with
  | |- context [Qinv (Qmake ?n ?d)] =>
      let k := eval vm_compute in (Qinv (Qmake n d)) in
      change (Qinv (Qmake n d)) with k
  | H : context [Qinv (Qmake ?n ?d)] |- _ =>
      let k := eval vm_compute in (Qinv (Qmake n d)) in
      change (Qinv (Qmake n d)) with k in H
  end.

(** ** Rounding in exact arithmetic *)

Lemma Qceil_ge (x : Q) : x <= Qceil x.
Proof. apply Qle_ceiling. Qed.

Lemma Qceil_lt (x : Q) : Qceil x < x + 1.
Proof.
  unfold Qceil. pose proof (Qceiling_lt x) as H.
  change (Qceiling x - 1)%Z with (Qceiling x + (-1))%Z in H.
  rewrite inject_Z_plus in H. change (inject_Z (-1)) with (-(1))%Q in H. lra.
Qed.


Lemma Qceil_comp (x y : Q) : x == y -> Qceil x = Qceil y.
Proof. intros H. unfold Qceil. now rewrite (Qceiling_comp x y H). Qed.

Lemma Qceil_nonneg (x : Q) : 0 <= x -> 0 <= Qceil x.
Proof. intros H. pose proof (Qceil_ge x). lra. Qed.

Lemma finalQty_exact (q : Q) : finalQty q = Qceil (q * 100) / 100.
Proof. reflexivity. Qed.

Lemma finalQty_ge (q : Q) : q <= finalQty q.
Proof.
  rewrite finalQty_exact. pose proof (Qceil_ge (q * 100)). inv_literals. lra.
Qed.

Lemma finalQty_lt (q : Q) : finalQty q < q + 0.01.
Proof.
  rewrite finalQty_exact. pose proof (Qceil_lt (q * 100)). inv_literals. lra.
Qed.


Lemma finalQty_comp (q r : Q) : q == r -> finalQty q = finalQty r.
Proof.
  intros H. rewrite !finalQty_exact.
  rewrite (Qceil_comp (q * 100) (r * 100)); [reflexivity|]. now rewrite H.
Qed.

Lemma finalQty_nonneg (q : Q) : 0 <= q -> 0 <= finalQty q.
Proof. intros H. pose proof (finalQty_ge q). lra. Qed.

Lemma finalQty_zero (q : Q) : q == 0 -> finalQty q == 0.
Proof. intros H. rewrite (finalQty_comp q 0 H). reflexivity. Qed.

Lemma roundedUp_finalQty (raw q : Q) : raw == q -> roundedUp raw = finalQty q.
Proof.
  intros H. rewrite <- (finalQty_comp raw q H). reflexivity.
Qed.

Lemma netWallArea_exact (i : UserInputs Q) :
  netWallArea i =
    Qmax 0 (wallPerimeter i * wallHeight i - windowArea i - doorCount i * 2).
Proof. reflexivity. Qed.

Lemma netWallArea_nonneg (i : UserInputs Q) : 0 <= netWallArea i.
Proof. rewrite netWallArea_exact. apply Q.le_max_l. Qed.

Lemma netWallArea_clamped (i : UserInputs Q) :
  wallPerimeter i * wallHeight i <= windowArea i + doorCount i * 2 ->
  netWallArea i == 0.
Proof.
  intros H. rewrite netWallArea_exact. apply Q.max_l. lra.
Qed.

Lemma specNetWallArea_eq (i : UserInputs Q) : specNetWallArea i == netWallArea i.
Proof.
  rewrite netWallArea_exact. unfold specNetWallArea.
  apply Q.max_compat; [reflexivity | lra].
Qed.

(** ** Price resolution in exact arithmetic *)



Lemma or_default_pos (a : option Q) (d : Q) :
  (forall v, a = Some v -> 0 <= v) -> 0 < d -> 0 < or_default a d.
Proof.
  intros Ha Hd. destruct a as [v|]; [|exact Hd].
  unfold or_default. exact_arith. unfold Qtruthy.
  destruct (Qeq_bool v 0) eqn:E; [exact Hd|]. cbn [negb].
  apply Qeq_bool_neq in E. specialize (Ha v eq_refl).
  destruct (Qle_lt_or_eq _ _ Ha) as [Hlt|Heq]; [exact Hlt|].
  exfalso. apply E. now symmetry.
Qed.

(** ** Double arithmetic: signs of rounded results *)

Lemma leb_zero_nonneg (x : float) :
  PrimFloat.leb PrimFloat.zero x = SFnonneg (Prim2SF x).
Proof.
  rewrite leb_spec. change (Prim2SF zero) with (S754_zero false).
  destruct (Prim2SF x) as [[]|[]| |[] m e]; reflexivity.
Qed.

Lemma ltb_zero_pos (x : float) :
  PrimFloat.ltb PrimFloat.zero x = SFpos (Prim2SF x).
Proof.
  rewrite ltb_spec. change (Prim2SF zero) with (S754_zero false).
  destruct (Prim2SF x) as [[]|[]| |[] m e]; reflexivity.
Qed.

Lemma SFcompare_refl (x : spec_float) : x <> S754_nan -> SFcompare x x = Some Eq.
Proof.
  destruct x as [s|s| |s m e]; intros Hx; try congruence.
  - reflexivity.
  - destruct s; reflexivity.
  - simpl. rewrite Z.compare_refl. rewrite Pos.compare_cont_refl. destruct s; reflexivity.
Qed.

Lemma float_truthy_spec (x : float) :
  float_truthy x = match Prim2SF x with
                   | S754_zero _ | S754_nan => false
                   | _ => true
                   end.
Proof.
  unfold float_truthy, is_zero, is_nan. rewrite !eqb_spec.
  change (Prim2SF zero) with (S754_zero false). unfold SFeqb.
  destruct (Prim2SF x) as [s|s| |s m e] eqn:E.
  - reflexivity.
  - destruct s; reflexivity.
  - reflexivity.
  - rewrite SFcompare_refl by discriminate. destruct s; reflexivity.
Qed.

(** *** Shape of rounded results *)

Lemma shr_1_nonneg (mrs : shr_record) :
  (0 <= shr_m mrs)%Z -> (0 <= shr_m (shr_1 mrs))%Z.
Proof.
  destruct mrs as [m r s]. simpl. intros Hm.
  destruct m as [|[p|p|]|p]; simpl; lia.
Qed.

Lemma iter_shr_1_nonneg (p : positive) (mrs : shr_record) :
  (0 <= shr_m mrs)%Z -> (0 <= shr_m (iter_pos shr_1 p mrs))%Z.
Proof.
  revert mrs. induction p as [p IH|p IH|]; intros mrs Hm; simpl.
  - apply IH, IH. now apply shr_1_nonneg.
  - now apply IH, IH.
  - now apply shr_1_nonneg.
Qed.

Lemma shr_fexp_nonneg (m e : Z) (l : location) :
  (0 <= m)%Z -> (0 <= shr_m (fst (shr_fexp prec emax m e l)))%Z.
Proof.
  intros Hm. unfold shr_fexp, shr.
  assert (H0 : (0 <= shr_m (shr_record_of_loc m l))%Z)
    by (destruct l as [|[]]; exact Hm).
  destruct (fexp prec emax (Zdigits2 m + e) - e)%Z; simpl; try exact H0.
  now apply iter_shr_1_nonneg.
Qed.

Lemma round_nearest_even_nonneg (m : Z) (l : location) :
  (0 <= m)%Z -> (0 <= round_nearest_even m l)%Z.
Proof.
  intros Hm. destruct l as [|[]]; simpl; try lia.
  destruct (Z.even m); lia.
Qed.

Lemma binary_round_aux_signed (s : bool) (m e : Z) (l : location) :
  (0 <= m)%Z -> SFsigned s (binary_round_aux prec emax s m e l).
Proof.
  intros Hm. unfold binary_round_aux.
  pose proof (shr_fexp_nonneg m e l Hm) as H1.
  destruct (shr_fexp prec emax m e l) as [mrs' e']. simpl in H1.
  pose proof (shr_fexp_nonneg _ e' loc_Exact
                (round_nearest_even_nonneg _ (loc_of_shr_record mrs') H1)) as H2.
  destruct (shr_fexp prec emax _ e' loc_Exact) as [mrs'' e'']. simpl in H2.
  destruct (shr_m mrs'') as [|p|p]; simpl; [reflexivity| |lia].
  destruct (e'' <=? emax - prec)%Z; reflexivity.
Qed.

Lemma binary_round_signed (s : bool) (m : positive) (e : Z) :
  SFsigned s (binary_round prec emax s m e).
Proof.
  unfold binary_round. destruct (shl_align m e _) as [mz ez].
  apply binary_round_aux_signed. lia.
Qed.

Lemma binary_normalize_nonneg (m e : Z) :
  (0 <= m)%Z -> SFnonneg (binary_normalize prec emax m e false) = true.
Proof.
  intros Hm. destruct m as [|p|p]; simpl; [reflexivity| |lia].
  pose proof (binary_round_signed false p e) as H.
  destruct (binary_round prec emax false p e) as [s|s| |s m' e']; simpl in *;
    subst; try reflexivity; contradiction.
Qed.

Lemma SFsigned_false_nonneg (x : spec_float) : SFsigned false x -> SFnonneg x = true.
Proof. destruct x as [s|s| |s m e]; simpl; intros H; subst; try reflexivity; contradiction. Qed.

Lemma SFsigned_not_nan (s : bool) (x : spec_float) : SFsigned s x -> x <> S754_nan.
Proof. destruct x; simpl; intros H; try discriminate; contradiction. Qed.

(** *** Operations *)

Lemma SFmul_nonneg_posfin (x c : spec_float) :
  SFnonneg x = true -> SFposfin c = true -> SFnonneg (SF64mul x c) = true.
Proof.
  destruct x as [[]|[]| |[] mx ex]; destruct c as [sc|sc| |[] mc ec];
    simpl; intros Hx Hc; try discriminate; try reflexivity.
  apply SFsigned_false_nonneg.
  apply (binary_round_aux_signed false). lia.
Qed.

Lemma SFmul_nonneg_fin (x y : spec_float) :
  SFnonneg x = true -> SFfin x = true -> SFnonneg y = true -> SFfin y = true ->
  SFnonneg (SF64mul x y) = true.
Proof.
  destruct x as [[]|[]| |[] mx ex]; destruct y as [[]|[]| |[] my ey];
    simpl; intros Hx Fx Hy Fy; try discriminate; try reflexivity.
  apply SFsigned_false_nonneg.
  apply (binary_round_aux_signed false). lia.
Qed.

Lemma SFdiv_nonneg_posfin (x c : spec_float) :
  SFnonneg x = true -> SFposfin c = true -> SFnonneg (SF64div x c) = true.
Proof.
  destruct x as [[]|[]| |[] mx ex]; destruct c as [sc|sc| |[] mc ec];
    simpl; intros Hx Hc; try discriminate; try reflexivity.
  unfold SF64div, SFdiv.
  destruct (SFdiv_core_binary prec emax (Z.pos mx) ex (Z.pos mc) ec)
    as [[mz ez] lz] eqn:E.
  apply SFsigned_false_nonneg. apply (binary_round_aux_signed false).
  unfold SFdiv_core_binary in E.
  set (m' := match _ with Zpos _ => _ | Z0 => _ | Zneg _ => _ end) in E.
  assert (Hm' : (0 <= m')%Z).
  { subst m'. destruct (_ - _ - _)%Z; try lia. apply Z.shiftl_nonneg. lia. }
  pose proof (Z_div_mod m' (Z.pos mc) ltac:(lia)) as Hd.
  destruct (Z.div_eucl m' (Z.pos mc)) as [q r]. injection E as <- _ _.
  nia.
Qed.

Lemma SFsub_not_nan (x y : spec_float) :
  x <> S754_nan -> SFfin y = true -> SF64sub x y <> S754_nan.
Proof.
  destruct x as [sx|sx| |sx mx ex]; destruct y as [sy|sy| |sy my ey];
    simpl; intros Hx Fy; try discriminate; try congruence.
  - destruct sx, sy; discriminate.
  - unfold SF64sub, SFsub, binary_normalize.
    destruct (_ - _)%Z; try discriminate;
      eapply SFsigned_not_nan; apply binary_round_signed.
Qed.

Lemma SFadd_nonneg (x y : spec_float) :
  SFnonneg x = true -> SFnonneg y = true -> SFnonneg (SF64add x y) = true.
Proof.
  destruct x as [[]|[]| |[] mx ex]; destruct y as [[]|[]| |[] my ey];
    simpl; intros Hx Hy; try discriminate; try reflexivity.
  apply SFsigned_false_nonneg, binary_round_signed.
Qed.

(** *** [Math.ceil], [Math.max], literals *)

Lemma of_uint63_nonneg (n : PrimInt63.int) : SFnonneg (Prim2SF (of_uint63 n)) = true.
Proof.
  rewrite of_uint63_spec. apply binary_normalize_nonneg.
  pose proof (Uint63.to_Z_bounded n). lia.
Qed.

Lemma float_ceil_nonneg (x : float) :
  SFnonneg (Prim2SF x) = true -> SFnonneg (Prim2SF (float_ceil x)) = true.
Proof.
  intros Hx. unfold float_ceil.
  destruct (Prim2SF x) as [s|s| |s m e] eqn:E; try (rewrite E; exact Hx).
  destruct s; [discriminate Hx|].
  destruct (0 <=? e)%Z eqn:He; [rewrite E; reflexivity|].
  apply Z.leb_gt in He. cbn [cond_Zopp].
  assert (Hc : (0 < - (- Z.pos m / 2 ^ (- e)))%Z).
  { assert (0 < 2 ^ (- e))%Z by (apply Z.pow_pos_nonneg; lia).
    assert (- Z.pos m / 2 ^ (- e) < 0)%Z by (apply Z.div_lt_upper_bound; lia).
    lia. }
  destruct (- (- Z.pos m / 2 ^ (- e)))%Z as [|c|c]; try lia.
  cbn [float_of_Z]. apply of_uint63_nonneg.
Qed.

Lemma is_nan_spec (x : float) :
  is_nan x = match Prim2SF x with S754_nan => true | _ => false end.
Proof.
  unfold is_nan. rewrite eqb_spec. unfold SFeqb.
  destruct (Prim2SF x) as [s|s| |s m e] eqn:E; try reflexivity.
  - destruct s; reflexivity.
  - rewrite SFcompare_refl by discriminate. reflexivity.
Qed.

Lemma float_max_zero_nonneg (x : float) :
  Prim2SF x <> S754_nan ->
  SFnonneg (Prim2SF (float_max zero x)) = true.
Proof.
  intros Hx. unfold float_max.
  change (is_nan zero) with false. rewrite is_nan_spec. cbn [orb].
  destruct (Prim2SF x) as [s|s| |s m e] eqn:E; try congruence;
    rewrite ltb_zero_pos, E; cbn [SFpos];
    try (destruct s; [|rewrite E; reflexivity]);
    destruct (x <? zero)%float; reflexivity.
Qed.

Lemma is_finite_spec (x : float) : is_finite x = SFfin (Prim2SF x).
Proof.
  unfold is_finite, is_infinity. rewrite is_nan_spec, eqb_spec, abs_spec.
  change (Prim2SF infinity) with (S754_infinity false).
  destruct (Prim2SF x) as [s|s| |s m e]; reflexivity.
Qed.

(** *** Non-negative doubles *)


Lemma NN_leb (x : float) : NN x <-> PrimFloat.leb zero x = true.
Proof. unfold NN. now rewrite leb_zero_nonneg. Qed.

Lemma FIN_is_finite (x : float) : FIN x <-> is_finite x = true.
Proof. unfold FIN. now rewrite is_finite_spec. Qed.

Lemma NN_not_nan (x : float) : NN x -> Prim2SF x <> S754_nan.
Proof. unfold NN. destruct (Prim2SF x); simpl; congruence. Qed.

Lemma NN_mul_lit (x c : float) : NN x -> LIT c -> NN (x * c)%float.
Proof. unfold NN, LIT. rewrite mul_spec. apply SFmul_nonneg_posfin. Qed.

Lemma NN_div_lit (x c : float) : NN x -> LIT c -> NN (x / c)%float.
Proof. unfold NN, LIT. rewrite div_spec. apply SFdiv_nonneg_posfin. Qed.

Lemma NN_mul_fin (x y : float) : NN x -> FIN x -> NN y -> FIN y -> NN (x * y)%float.
Proof. unfold NN, FIN. rewrite mul_spec. apply SFmul_nonneg_fin. Qed.

Lemma NN_add (x y : float) : NN x -> NN y -> NN (x + y)%float.
Proof. unfold NN. rewrite add_spec. apply SFadd_nonneg. Qed.

Lemma NN_ceil (x : float) : NN x -> NN (float_ceil x).
Proof. apply float_ceil_nonneg. Qed.

Lemma not_nan_sub (x y : float) :
  Prim2SF x <> S754_nan -> FIN y -> Prim2SF (x - y)%float <> S754_nan.
Proof. unfold FIN. rewrite sub_spec. apply SFsub_not_nan. Qed.

Lemma NN_finalQty (q : float) : NN q -> NN (finalQty q).
Proof.
  intros Hq. unfold finalQty. cbn [num_div num_mul Math_ceil lit float_Number].
  apply NN_div_lit; [|vm_compute; reflexivity].
  apply NN_ceil. apply NN_mul_lit; [exact Hq | vm_compute; reflexivity].
Qed.

Lemma NN_netWallArea (i : UserInputs float) :
  NN (wallPerimeter i) -> FIN (wallPerimeter i) ->
  NN (wallHeight i) -> FIN (wallHeight i) ->
  FIN (windowArea i) -> FIN (doorCount i * float_lit 2)%float ->
  NN (netWallArea i).
Proof.
  intros Hp Fp Hh Fh Fw Fd. unfold netWallArea, grossWallArea.
  cbn [num_sub num_mul Math_max lit float_Number].
  change (float_lit 0) with zero.
  apply float_max_zero_nonneg.
  apply not_nan_sub; [|exact Fd].
  apply not_nan_sub; [|exact Fw].
  apply NN_not_nan. now apply NN_mul_fin.
Qed.

(** ** Prices in double arithmetic *)



Lemma or_default_pos64 (a : option float) (d : float) :
  (forall v, a = Some v -> PrimFloat.leb zero v = true) ->
  PrimFloat.ltb zero d = true -> PrimFloat.ltb zero (or_default a d) = true.
Proof.
  intros Ha Hd. destruct a as [v|]; [|exact Hd].
  specialize (Ha v eq_refl). rewrite leb_zero_nonneg in Ha.
  unfold or_default. cbn [ToBoolean float_Number]. rewrite float_truthy_spec.
  destruct (Prim2SF v) as [s|[]| |[] m e] eqn:E; try discriminate Ha;
    try exact Hd; rewrite ltb_zero_pos, E; reflexivity.
Qed.

(** ** Structure of the result, for any arithmetic *)

Lemma Forall_category_replicate {N} (c : Category) (b : list (MaterialItem N)) :
  Forall (fun it => category it = c) b ->
  map category b = replicate (length b) c.
Proof.
  induction 1 as [|it b Hit _ IH]; simpl; [reflexivity|].
  now rewrite Hit, IH.
Qed.

Lemma fourBlocks_categories {N} (l : list (MaterialItem N)) :
  fourBlocks l ->
  exists n1 n2 n3 n4 : nat,
    map category l =
      replicate (S n1) Platea ++ replicate (S n2) Muros ++
      replicate (S n3) Aberturas ++ replicate (S n4) Techo.
Proof.
  intros (b1 & b2 & b3 & b4 & -> & H1 & H2 & H3 & H4 & N1 & N2 & N3 & N4).
  destruct b1 as [|x1 b1]; [contradiction|].
  destruct b2 as [|x2 b2]; [contradiction|].
  destruct b3 as [|x3 b3]; [contradiction|].
  destruct b4 as [|x4 b4]; [contradiction|].
  exists (length b1), (length b2), (length b3), (length b4).
  rewrite !map_app.
  rewrite (Forall_category_replicate _ _ H1), (Forall_category_replicate _ _ H2),
    (Forall_category_replicate _ _ H3), (Forall_category_replicate _ _ H4).
  reflexivity.
Qed.

(** C1, as stated, fails: for the masonry system the roof-structure item
    (category Techo) is pushed inside the system switch, before the two
    Aberturas items, so the list is not four blocks in the stated order. *)
Lemma fourBlocks_fails_masonry :
  ~ fourBlocks (calculateMaterials ex_inputs TRADITIONAL ∅).
Proof.
  intros H. apply fourBlocks_categories in H.
  destruct H as (n1 & n2 & n3 & n4 & H).
  change (map category (calculateMaterials ex_inputs TRADITIONAL ∅))
    with [Platea; Platea; Platea; Muros; Muros; Muros; Techo;
          Aberturas; Aberturas; Techo; Techo; Techo] in H.
  simpl in H.
  repeat match type of H with
  | _ :: _ = _ :: _ =>
      first [discriminate H | apply (f_equal (@tail _)) in H; simpl in H]
  | _ = replicate ?n _ ++ _ => destruct n; simpl in H
  | _ = replicate ?n _ => destruct n; simpl in H
  end.
Qed.

(** C1 (amended). For every input record, every system and every override
    mapping, the returned list is the concatenation of five contiguous blocks
    in the fixed order: the three Platea items, the Muros items of the system,
    the one roof-structure item of the system (category Techo), the two
    Aberturas items, the three common Techo items.  Every item's category is
    that of its block and no block is empty. *)
Theorem calculateMaterials_blocks {N} `{Number N} (i : UserInputs N)
    (system : ConstructionSystem) (prices : gmap string N) :
  exists (platea muros : list (MaterialItem N)) (roofStructure : MaterialItem N)
         (aberturas techo : list (MaterialItem N)),
    calculateMaterials i system prices =
      platea ++ muros ++ [roofStructure] ++ aberturas ++ techo /\
    Forall (fun it => category it = Platea) platea /\
    Forall (fun it => category it = Muros) muros /\
    category roofStructure = Techo /\
    (id roofStructure = "roof_struct_metal" \/ id roofStructure = "roof_struct_wood") /\
    Forall (fun it => category it = Aberturas) aberturas /\
    Forall (fun it => category it = Techo) techo /\
    length platea = 3%nat /\ muros <> [] /\
    length aberturas = 2%nat /\ length techo = 3%nat.
Proof.
  destruct system; run_calc.
  - eexists [_; _; _], [_; _; _], _, [_; _], [_; _; _].
    split; [reflexivity|]. repeat split; try each_item; auto; discriminate.
  - eexists [_; _; _], [_; _; _], _, [_; _], [_; _; _].
    split; [reflexivity|]. repeat split; try each_item; auto; discriminate.
  - eexists [_; _; _], [_; _; _; _; _], _, [_; _], [_; _; _].
    split; [reflexivity|]. repeat split; try each_item; auto; discriminate.
  - eexists [_; _; _], [_; _; _], _, [_; _], [_; _; _].
    split; [reflexivity|]. repeat split; try each_item; auto; discriminate.
  - eexists [_; _; _], [_; _; _; _], _, [_; _], [_; _; _].
    split; [reflexivity|]. repeat split; try each_item; auto; discriminate.
Qed.

(** C6. For every system the sequence of ids of the result, and so its
    length, is the constant [materialIds system], whatever the inputs and the
    overrides (no item is left out, also when its quantity is zero), and no id
    occurs twice in a result. *)
Theorem ids_fixed_per_system {N} `{Number N} (i : UserInputs N)
    (system : ConstructionSystem) (prices : gmap string N) :
  map id (calculateMaterials i system prices) = materialIds system /\
  length (calculateMaterials i system prices) = length (materialIds system) /\
  NoDup (map id (calculateMaterials i system prices)).
Proof.
  assert (E : map id (calculateMaterials i system prices) = materialIds system)
    by (destruct system; reflexivity).
  split; [exact E|]. split.
  - rewrite <- E. now rewrite length_map.
  - rewrite E. apply (bool_decide_unpack _). destruct system; vm_compute; reflexivity.
Qed.

(** ** Purity *)

Lemma calculateMaterialsM_run {N} `{Number N} (system : ConstructionSystem)
    (st : Store N) :
  calculateMaterialsM system st =
    (calculateMaterials (inputs st) system (currentPrices st),
     {| inputs := inputs st; currentPrices := currentPrices st;
        materials := calculateMaterials (inputs st) system (currentPrices st) |}).
Proof. destruct system; run_calc; reflexivity. Qed.

(** C7. A call returns a list that depends only on the input record, the
    system and the override mapping: run in two stores that hold equal
    arguments (whatever array an earlier call left behind), and run again in
    the store the first call leaves, it returns item-for-item the same list,
    and it leaves the two argument objects as they were. *)
Theorem calculateMaterials_deterministic {N} `{Number N} (i : UserInputs N)
    (system : ConstructionSystem) (prices : gmap string N)
    (earlier earlier' : list (MaterialItem N)) :
  let st := {| inputs := i; currentPrices := prices; materials := earlier |} in
  let st' := {| inputs := i; currentPrices := prices; materials := earlier' |} in
  let after := snd (calculateMaterialsM system st) in
  fst (calculateMaterialsM system st) = fst (calculateMaterialsM system st') /\
  fst (calculateMaterialsM system after) = fst (calculateMaterialsM system st) /\
  fst (calculateMaterialsM system st) = calculateMaterials i system prices /\
  inputs after = i /\ currentPrices after = prices.
Proof.
  cbv zeta. rewrite !calculateMaterialsM_run. cbn [fst snd inputs currentPrices].
  repeat split.
Qed.

(** ** Prices *)




(** C10. For every input record, system and override mapping whose values are
    all non-negative, every returned item's unitPrice is strictly positive;
    an entry of exactly 0 gives the item its built-in default, not 0.  In
    exact arithmetic and in double arithmetic. *)
Theorem unitPrice_positive :
  (forall (i : UserInputs Q) (system : ConstructionSystem) (prices : gmap string Q),
     (forall k v, prices !! k = Some v -> 0 <= v) ->
     forall it, it ∈ calculateMaterials i system prices ->
       0 < unitPrice it /\
       (prices !! id it = Some 0 -> defaultPrice (id it) = Some (unitPrice it))) /\
  (forall (i : UserInputs float) (system : ConstructionSystem)
          (prices : gmap string float),
     (forall k v, prices !! k = Some v -> PrimFloat.leb zero v = true) ->
     forall it, it ∈ calculateMaterials i system prices ->
       PrimFloat.ltb zero (unitPrice it) = true /\
       (prices !! id it = Some zero ->
        exists d : Q, defaultPrice (id it) = Some d /\ unitPrice it = lit d)).
Proof.
  split.
  - intros i system prices Hp. by_items. destruct system; run_calc;
      each_item; cbn [id unitPrice];
      (split; [ apply or_default_pos; [apply Hp | reflexivity]
              | intros ->; reflexivity ]).
  - intros i system prices Hp. by_items. destruct system; run_calc;
      each_item; cbn [id unitPrice];
      (split; [ apply or_default_pos64; [apply Hp | vm_compute; reflexivity]
              | intros ->; eexists; split; reflexivity ]).
Qed.

Lemma unitPrice_positive_witness :
  ({[ "osb_95" := 0 ]} : gmap string Q) !! "osb_95" = Some 0 /\
  (forall it, it ∈ calculateMaterials ex_inputs STEEL_FRAME {[ "osb_95" := 0 ]} ->
     0 < unitPrice it /\
     (({[ "osb_95" := 0 ]} : gmap string Q) !! id it = Some 0 ->
        defaultPrice (id it) = Some (unitPrice it))).
Proof.
  split; [apply lookup_singleton_eq|].
  apply (proj1 unitPrice_positive ex_inputs STEEL_FRAME {[ "osb_95" := 0 ]}).
  intros k v H. apply lookup_singleton_Some in H as [_ <-]. apply Qle_refl.
Defined.

(** ** Quantities *)

(** Applies the sign lemmas of double arithmetic to a formula. *)
Ltac nn64 :=
  repeat first
    [ assumption
    | apply NN_mul_lit; [|vm_compute; reflexivity]
    | apply NN_div_lit; [|vm_compute; reflexivity]
    | apply NN_add
    | apply NN_ceil
    | apply NN_mul_fin ].

(** C9, as stated, fails in double arithmetic: the five fields of
    [ex_overflow] are finite and non-negative, the stud count
    ceil(2^1023 / 0.40) is Infinity, the stud length Infinity * 0 is NaN, and
    the quantity of pgc_100 for Steel Frame is NaN, which is not at least 0. *)
Lemma quantity_nonneg_fails_overflow :
  (PrimFloat.is_finite (plateArea ex_overflow) = true /\
   PrimFloat.is_finite (wallHeight ex_overflow) = true /\
   PrimFloat.is_finite (wallPerimeter ex_overflow) = true /\
   PrimFloat.is_finite (windowArea ex_overflow) = true /\
   PrimFloat.is_finite (doorCount ex_overflow) = true) /\
  (exists it, it ∈ calculateMaterials ex_overflow STEEL_FRAME ∅ /\
     id it = "pgc_100" /\ PrimFloat.is_nan (quantity it) = true) /\
  ~ quantitiesNonneg ex_overflow STEEL_FRAME ∅.
Proof.
  split; [repeat split; vm_compute; reflexivity|].
  assert (Hit : exists it, it ∈ calculateMaterials ex_overflow STEEL_FRAME ∅ /\
                  id it = "pgc_100" /\ PrimFloat.is_nan (quantity it) = true).
  { apply Exists_exists. run_calc.
    do 3 apply Exists_cons_tl. apply Exists_cons_hd.
    split; [reflexivity|]. vm_compute. reflexivity. }
  split; [exact Hit|].
  intros H. destruct Hit as (it & Hin & _ & Hnan).
  assert (Hq : PrimFloat.leb zero (quantity it) = true).
  { apply (H ltac:(repeat split; vm_compute; reflexivity) it Hin). }
  rewrite is_nan_spec in Hnan. rewrite leb_zero_nonneg in Hq.
  destruct (Prim2SF (quantity it)); discriminate.
Qed.





(** The clamp in exact arithmetic: for every input record and system, if
    windowArea + doorCount * 2 >= wallPerimeter * wallHeight then the net
    wall area is 0 and every Muros item derived from it has quantity 0; the
    other Muros items are the framing ones. *)
Lemma netWallArea_clamps_exact (i : UserInputs Q) (system : ConstructionSystem)
    (prices : gmap string Q) :
  wallPerimeter i * wallHeight i <= windowArea i + doorCount i * 2 ->
  netWallArea i == 0 /\
  forall it, it ∈ calculateMaterials i system prices -> category it = Muros ->
    (member (id it) netAreaIds = true -> quantity it == 0) /\
    (member (id it) netAreaIds = false -> member (id it) framingIds = true).
Proof.
  intros H.
  pose proof (netWallArea_clamped i H) as Hn. split; [exact Hn|].
  by_items. destruct system; run_calc; each_item; cbn [id category quantity];
    intros E; try discriminate E;
    (split; intros Hm; vm_compute in Hm; try discriminate Hm; try reflexivity);
    apply finalQty_zero; exact_arith; inv_literals; lra.
Qed.

(** X4. The clamp in double arithmetic acts on the computed difference: for
    every input record and system, if the double
    wallPerimeter * wallHeight - windowArea - doorCount * 2 is at most 0,
    the net wall area is the double 0 and every Muros item derived from it
    has quantity 0. *)
Lemma netWallArea_clamps_computed (i : UserInputs float)
    (system : ConstructionSystem) (prices : gmap string float) :
  PrimFloat.leb
    (num_sub (num_sub (num_mul (wallPerimeter i) (wallHeight i)) (windowArea i))
             (num_mul (doorCount i) (lit 2)))
    zero = true ->
  netWallArea i = zero /\
  forall it, it ∈ calculateMaterials i system prices -> category it = Muros ->
    member (id it) netAreaIds = true -> quantity it = zero.
Proof.
  intros H.
  assert (Hn : netWallArea i = zero).
  { unfold netWallArea, grossWallArea. cbn [Math_max lit float_Number].
    change (float_lit 0) with zero. unfold float_max.
    set (x := num_sub _ _) in *.
    rewrite leb_spec in H. change (Prim2SF zero) with (S754_zero false) in H.
    change (is_nan zero) with false. rewrite is_nan_spec, ltb_zero_pos. cbn [orb].
    destruct (Prim2SF x) as [s|[]| |[] m e]; try discriminate H;
      cbn [SFpos]; destruct (x <? zero)%float; reflexivity. }
  split; [exact Hn|].
  by_items. destruct system; run_calc; each_item; cbn [id category quantity];
    intros E; try discriminate E; intros Hm; vm_compute in Hm;
    try discriminate Hm; rewrite Hn; vm_compute; reflexivity.
Qed.

(** The stored quantity against the specification's formula, in exact
    arithmetic: every returned item's quantity is the ceiling of its raw
    formula value at the hundredths digit, never less than the raw value and
    less than 0.01 above it. *)
Lemma quantity_rounded_up_exact (i : UserInputs Q) (system : ConstructionSystem)
    (prices : gmap string Q) :
  forall it, it ∈ calculateMaterials i system prices ->
    exists raw, assoc (id it) (specFormulas i system) = Some raw /\
      quantity it = roundedUp raw /\
      raw <= quantity it /\ quantity it < raw + 0.01.
Proof.
  by_items. destruct system; run_calc; each_item; cbn [id quantity];
    (eexists; split; [reflexivity|]; split;
     [ symmetry; apply roundedUp_finalQty;
       rewrite ?specNetWallArea_eq; exact_arith; unfold Qceil; inv_literals; ring
     | split;
       [ eapply Qle_trans; [|apply finalQty_ge]
       | eapply Qlt_le_trans; [apply finalQty_lt|] ];
       rewrite ?specNetWallArea_eq; exact_arith; unfold Qceil; inv_literals; lra ]).
Qed.

(** ** The example of the specification *)

(** C3. With plateArea 60, wallHeight 2.6, wallPerimeter 40, windowArea 8 and
    doorCount 2, the masonry system and no override, the result holds an item
    of id conc_h17 with quantity 7.20, the net wall area is 92.0, and the item
    of id brick_hollow has quantity 1426.00: in exact arithmetic, and in
    double arithmetic, where 7.20, 92.0 and 1426.00 are the doubles of these
    decimals. *)
Theorem masonry_example :
  (let r := calculateMaterials (N:=Q) ex_inputs TRADITIONAL ∅ in
   (exists it, it ∈ r /\ id it = "conc_h17" /\ quantity it == 7.20) /\
   netWallArea (N:=Q) ex_inputs == 92.0 /\
   (exists it, it ∈ r /\ id it = "brick_hollow") /\
   (forall it, it ∈ r -> id it = "brick_hollow" -> quantity it == 1426.00)) /\
  (let r := calculateMaterials (N:=float) (inputsOf ex_inputs) TRADITIONAL ∅ in
   (exists it, it ∈ r /\ id it = "conc_h17" /\ quantity it = lit 7.20) /\
   netWallArea (N:=float) (inputsOf ex_inputs) = lit 92.0 /\
   (exists it, it ∈ r /\ id it = "brick_hollow") /\
   (forall it, it ∈ r -> id it = "brick_hollow" -> quantity it = lit 1426.00)).
Proof.
  cbv zeta. split; (split; [|split; [|split]]).
  - apply Exists_exists. run_calc. apply Exists_cons_hd.
    split; [reflexivity | vm_compute; reflexivity].
  - vm_compute; reflexivity.
  - apply Exists_exists. run_calc. do 3 apply Exists_cons_tl.
    apply Exists_cons_hd. reflexivity.
  - by_items. run_calc.
    each_item; cbn [id quantity]; intros E; try discriminate E.
    vm_compute; reflexivity.
  - apply Exists_exists. run_calc. apply Exists_cons_hd.
    split; [reflexivity | vm_compute; reflexivity].
  - vm_compute; reflexivity.
  - apply Exists_exists. run_calc. do 3 apply Exists_cons_tl.
    apply Exists_cons_hd. reflexivity.
  - by_items. run_calc.
    each_item; cbn [id quantity]; intros E; try discriminate E.
    vm_compute; reflexivity.
Qed.

(** ** Rounding in double arithmetic *)

(** C5 in the code's double arithmetic.  The two examples of the claim hold:
    a window area of 12.341 is stored as 12.35 and one of 12.340 as 12.34.
    The general statement does not: for plateArea 100 the raw formula value
    of mesh_steel is 100 * 1.10 = 110, whose ceiling at the hundredths digit
    is 110.00 (and exact arithmetic stores 110), but the double product
    100 * 1.10 is 110.00000000000001, its hundredfold 11000.000000000002, and
    the stored quantity 110.01; for plateArea 1.1 the raw double of
    screw_roof, 1.1 * 6 = 6.6000000000000005, is stored as 6.6, which is less
    than the raw double. *)
Theorem quantity_rounding_in_doubles :
  (forall it,
     it ∈ calculateMaterials (N:=float)
            (inputsOf {| plateArea := 60; wallHeight := 2.6; wallPerimeter := 40;
                         windowArea := 12.341; doorCount := 2 |}) TRADITIONAL ∅ ->
     id it = "win_dvh" -> quantity it = lit 12.35) /\
  (forall it,
     it ∈ calculateMaterials (N:=float)
            (inputsOf {| plateArea := 60; wallHeight := 2.6; wallPerimeter := 40;
                         windowArea := 12.340; doorCount := 2 |}) TRADITIONAL ∅ ->
     id it = "win_dvh" -> quantity it = lit 12.34) /\
  assoc "mesh_steel" (specFormulas (ex_plate 100) TRADITIONAL) = Some (100 * 1.10) /\
  roundedUp (100 * 1.10) == 110.00 /\
  (forall it, it ∈ calculateMaterials (N:=Q) (ex_plate 100) TRADITIONAL ∅ ->
     id it = "mesh_steel" -> quantity it == 110.00) /\
  (forall it,
     it ∈ calculateMaterials (N:=float) (inputsOf (ex_plate 100)) TRADITIONAL ∅ ->
     id it = "mesh_steel" ->
     quantity it = lit 110.01 /\ PrimFloat.eqb (quantity it) (lit 110.00) = false) /\
  (forall it,
     it ∈ calculateMaterials (N:=float) (inputsOf (ex_plate 1.1)) TRADITIONAL ∅ ->
     id it = "screw_roof" ->
     quantity it = lit 6.6 /\
     PrimFloat.ltb (quantity it) (num_mul (lit 1.1) (lit 6)) = true).
Proof.
  repeat match goal with |- _ /\ _ => split end;
    try (vm_compute; reflexivity);
    by_items; run_calc; each_item; cbn [id quantity]; intros E;
    try discriminate E; try split; vm_compute; reflexivity.
Qed.

(** The other examples of this file, evaluated in double arithmetic: with
    openings larger than the gross wall area the quantities derived from the
    net wall area are the double 0; no quantity of [ex_inputs] is negative or
    NaN. *)
Lemma examples_in_doubles :
  (forall it,
     it ∈ calculateMaterials (N:=float) (inputsOf ex_openings) METAL_PANEL ∅ ->
     member (id it) netAreaIds = true -> quantity it = lit 0) /\
  (forall system it,
     it ∈ calculateMaterials (N:=float) (inputsOf ex_inputs) system ∅ ->
     PrimFloat.leb (lit 0) (quantity it) = true).
Proof.
  split.
  - by_items; run_calc; each_item; cbn [id quantity]; intros E;
      vm_compute in E; try discriminate E; vm_compute; reflexivity.
  - intros system. by_items.
    destruct system; run_calc; each_item; cbn [quantity]; vm_compute; reflexivity.
Qed.

(** C4 in the code's double arithmetic.  For wallPerimeter 5, wallHeight
    2.46, windowArea 6.3 and doorCount 3 the openings equal the gross wall
    area: 6.3 + 3 * 2 >= 5 * 2.46 holds for the decimals, for the real numbers
    their doubles stand for, and as the doubles evaluate it.  Exact arithmetic
    gives a net wall area of 0 and quantity 0 for the three masonry wall
    items.  In doubles 5 * 2.46 - 6.3 is 6.000000000000001, so the net wall
    area the code computes is 8.881784197001252e-16, not 0, and each of the
    three items is stored with quantity 0.01. *)
Theorem clamp_in_doubles :
  wallPerimeter ex_boundary * wallHeight ex_boundary
    <= windowArea ex_boundary + doorCount ex_boundary * 2 /\
  (exists p h w d : Q,
     float_value (lit (wallPerimeter ex_boundary)) = Some p /\
     float_value (lit (wallHeight ex_boundary)) = Some h /\
     float_value (lit (windowArea ex_boundary)) = Some w /\
     float_value (lit (doorCount ex_boundary)) = Some d /\
     p * h <= w + d * 2) /\
  PrimFloat.leb
    (num_mul (wallPerimeter (inputsOf ex_boundary)) (wallHeight (inputsOf ex_boundary)))
    (num_add (windowArea (inputsOf ex_boundary))
             (num_mul (doorCount (inputsOf ex_boundary)) (lit 2))) = true /\
  netWallArea (N:=Q) ex_boundary == 0 /\
  (forall it, it ∈ calculateMaterials (N:=Q) ex_boundary TRADITIONAL ∅ ->
     category it = Muros -> quantity it == 0) /\
  PrimFloat.ltb (lit 0) (netWallArea (N:=float) (inputsOf ex_boundary)) = true /\
  (forall it,
     it ∈ calculateMaterials (N:=float) (inputsOf ex_boundary) TRADITIONAL ∅ ->
     category it = Muros ->
     member (id it) netAreaIds = true /\ quantity it = lit 0.01).
Proof.
  split; [discriminate|].
  split.
  { do 4 eexists. repeat (split; [vm_compute; reflexivity|]). vm_compute. discriminate. }
  repeat match goal with |- _ /\ _ => split end;
    try (vm_compute; reflexivity);
    by_items; run_calc; each_item; cbn [id category quantity]; intros E;
    try discriminate E; try split; vm_compute; reflexivity.
Qed.

(** ** What a result depends on *)

(** X1. Quantities and prices do not interfere: the quantities of a result
    do not depend on the override mapping, and the unit prices, ids, names,
    units and categories do not depend on the input record. *)
Theorem quantities_and_prices_independent {N} `{Number N}
    (i i' : UserInputs N) (system : ConstructionSystem)
    (prices prices' : gmap string N) :
  map quantity (calculateMaterials i system prices) =
    map quantity (calculateMaterials i system prices') /\
  map unitPrice (calculateMaterials i system prices) =
    map unitPrice (calculateMaterials i' system prices) /\
  map (fun it => (id it, name it, unit it, category it))
      (calculateMaterials i system prices) =
    map (fun it => (id it, name it, unit it, category it))
        (calculateMaterials i' system prices').
Proof.
  destruct system; run_calc; repeat split.
Qed.

(** X2. The system changes the wall items and the id of the roof structure
    only: the three slab items at the head of the list and the two opening
    items and three roof items at its end are the same for the five systems,
    and between them stand the wall items of the system and one
    roof-structure item whose quantity, the rounded plateArea * 1.5, is the
    same for the five systems. *)
Theorem system_changes_walls_only {N} `{Number N} (i : UserInputs N)
    (prices : gmap string N) :
  exists platea closing : list (MaterialItem N),
    length platea = 3%nat /\ length closing = 5%nat /\
    forall system, exists (muros : list (MaterialItem N)) (roof : MaterialItem N),
      calculateMaterials i system prices = platea ++ muros ++ [roof] ++ closing /\
      Forall (fun it => category it = Muros) muros /\
      category roof = Techo /\
      quantity roof = finalQty (num_mul (plateArea i) (lit 1.5)).
Proof.
  eexists [_; _; _], [_; _; _; _; _]. split; [reflexivity|]. split; [reflexivity|].
  intros system. destruct system; run_calc.
  - eexists [_; _; _], _. split; [reflexivity|]. repeat split; each_item; reflexivity.
  - eexists [_; _; _], _. split; [reflexivity|]. repeat split; each_item; reflexivity.
  - eexists [_; _; _; _; _], _. split; [reflexivity|]. repeat split; each_item; reflexivity.
  - eexists [_; _; _], _. split; [reflexivity|]. repeat split; each_item; reflexivity.
  - eexists [_; _; _; _], _. split; [reflexivity|]. repeat split; each_item; reflexivity.
Qed.

Lemma or_default_truthy {N} `{Number N} (a : option N) (d : N) :
  ToBoolean d = true -> ToBoolean (or_default a d) = true.
Proof.
  intros Hd. destruct a as [v|]; [|exact Hd]. unfold or_default.
  destruct (ToBoolean v) eqn:E; [exact E | exact Hd].
Qed.

(** X3. Whatever the override mapping holds (negative numbers, zeros, NaN,
    infinities), no item of a result has a unit price that is zero or NaN:
    a falsy override gives way to the built-in default, and no default is
    zero.  In exact arithmetic and in double arithmetic. *)
Theorem unitPrice_never_zero :
  (forall (i : UserInputs Q) (system : ConstructionSystem) (prices : gmap string Q) it,
     it ∈ calculateMaterials i system prices -> ~ unitPrice it == 0) /\
  (forall (i : UserInputs float) (system : ConstructionSystem)
          (prices : gmap string float) it,
     it ∈ calculateMaterials i system prices ->
     PrimFloat.is_nan (unitPrice it) = false /\
     PrimFloat.is_zero (unitPrice it) = false).
Proof.
  split.
  - intros i system prices.
    assert (G : forall it, it ∈ calculateMaterials i system prices ->
                  ToBoolean (unitPrice it) = true).
    { by_items. destruct system; run_calc; each_item; cbn [unitPrice];
        apply or_default_truthy; reflexivity. }
    intros it Hin E. specialize (G it Hin). cbn [ToBoolean Q_Number] in G.
    unfold Qtruthy in G. now rewrite (Qeq_eq_bool _ _ E) in G.
  - intros i system prices.
    assert (G : forall it, it ∈ calculateMaterials i system prices ->
                  ToBoolean (unitPrice it) = true).
    { by_items. destruct system; run_calc; each_item; cbn [unitPrice];
        apply or_default_truthy; vm_compute; reflexivity. }
    intros it Hin. specialize (G it Hin). cbn [ToBoolean float_Number] in G.
    unfold float_truthy in G. apply negb_true_iff, orb_false_iff in G. tauto.
Qed.

(** ** The wall inputs *)

Lemma netWallArea_clamps_computed_witness :
  PrimFloat.leb
    (num_sub (num_sub (num_mul (wallPerimeter (inputsOf ex_openings))
                               (wallHeight (inputsOf ex_openings)))
                      (windowArea (inputsOf ex_openings)))
             (num_mul (doorCount (inputsOf ex_openings)) (lit 2)))
    zero = true /\
  netWallArea (N:=float) (inputsOf ex_openings) = zero /\
  forall it, it ∈ calculateMaterials (N:=float) (inputsOf ex_openings) SIP ∅ ->
    category it = Muros -> member (id it) netAreaIds = true -> quantity it = zero.
Proof.
  split; [vm_compute; reflexivity|].
  apply (netWallArea_clamps_computed (inputsOf ex_openings) SIP ∅).
  vm_compute; reflexivity.
Defined.

(** ** Monotonicity in exact arithmetic *)






(** ** The total cost *)

Lemma totalCost_nonneg_exact (l : list (MaterialItem Q)) :
  Forall (fun it => 0 <= quantity it /\ 0 <= unitPrice it) l ->
  0 <= totalCost l.
Proof.
  unfold totalCost. cbn [lit Q_Number].
  assert (G : forall acc, 0 <= acc ->
                Forall (fun it : MaterialItem Q => 0 <= quantity it /\ 0 <= unitPrice it) l ->
                0 <= fold_left (fun acc curr =>
                                  num_add acc (num_mul (quantity curr) (unitPrice curr)))
                               l acc);
    [|intros Hl; apply G; [apply Qle_refl | exact Hl]].
  induction l as [|it l IH]; intros acc Hacc Hl; [exact Hacc|].
  inversion Hl as [|? ? [Hq Hp] Hl']; subst. cbn [fold_left].
  apply IH; [|exact Hl']. exact_arith. nra.
Qed.

Lemma totalCost_nonneg_doubles (l : list (MaterialItem float)) :
  Forall (fun it => NN (quantity it) /\ LIT (unitPrice it)) l ->
  NN (totalCost l).
Proof.
  unfold totalCost. cbn [lit float_Number].
  assert (G : forall acc, NN acc ->
                Forall (fun it : MaterialItem float =>
                          NN (quantity it) /\ LIT (unitPrice it)) l ->
                NN (fold_left (fun acc curr =>
                                 num_add acc (num_mul (quantity curr) (unitPrice curr)))
                              l acc));
    [|intros Hl; apply G; [reflexivity | exact Hl]].
  induction l as [|it l IH]; intros acc Hacc Hl; [exact Hacc|].
  inversion Hl as [|? ? [Hq Hp] Hl']; subst. cbn [fold_left].
  apply IH; [|exact Hl']. cbn [num_add num_mul float_Number].
  apply NN_add; [exact Hacc|]. now apply NN_mul_lit.
Qed.

(** A resolved price is a positive finite double when the override, if any,
    is a finite double that is not negative. *)
Lemma or_default_posfin64 (a : option float) (d : float) :
  (forall v, a = Some v ->
     PrimFloat.leb zero v = true /\ PrimFloat.is_finite v = true) ->
  LIT d -> LIT (or_default a d).
Proof.
  intros Ha Hd. destruct a as [v|]; [|exact Hd].
  destruct (Ha v eq_refl) as [Hv Fv].
  rewrite leb_zero_nonneg in Hv. rewrite is_finite_spec in Fv.
  unfold or_default. cbn [ToBoolean float_Number]. rewrite float_truthy_spec.
  unfold LIT in *.
  destruct (Prim2SF v) as [s|[]| |[] m e] eqn:E; try discriminate Hv;
    try discriminate Fv; try exact Hd.
  rewrite E. reflexivity.
Qed.

(** X7. The total cost of a computed list is not negative: in exact
    arithmetic when no dimension and no override is negative; in double
    arithmetic, where it is then not NaN either, for finite non-negative
    dimensions whose door-count double, stud count and column count are
    finite and for overrides that are finite and not negative. *)
Theorem totalCost_nonneg :
  (forall (i : UserInputs Q) (system : ConstructionSystem) (prices : gmap string Q),
     0 <= plateArea i -> 0 <= wallHeight i -> 0 <= wallPerimeter i ->
     0 <= windowArea i -> 0 <= doorCount i ->
     (forall k v, prices !! k = Some v -> 0 <= v) ->
     0 <= totalCost (calculateMaterials i system prices)) /\
  (forall (i : UserInputs float) (system : ConstructionSystem)
          (prices : gmap string float),
     (PrimFloat.leb zero (plateArea i) = true /\
      PrimFloat.leb zero (wallHeight i) = true /\
      PrimFloat.leb zero (wallPerimeter i) = true /\
      PrimFloat.leb zero (windowArea i) = true /\
      PrimFloat.leb zero (doorCount i) = true) ->
     (PrimFloat.is_finite (wallHeight i) = true /\
      PrimFloat.is_finite (wallPerimeter i) = true /\
      PrimFloat.is_finite (windowArea i) = true /\
      PrimFloat.is_finite (num_mul (doorCount i) (lit 2)) = true /\
      PrimFloat.is_finite (Math_ceil (num_div (wallPerimeter i) (lit 0.40))) = true /\
      PrimFloat.is_finite (Math_ceil (num_div (wallPerimeter i) (lit 3))) = true) ->
     (forall k v, prices !! k = Some v ->
        PrimFloat.leb zero v = true /\ PrimFloat.is_finite v = true) ->
     PrimFloat.leb zero (totalCost (calculateMaterials i system prices)) = true).
Proof.
  split.
  - intros i system prices Ha Hh Hp Hw Hd Hv.
    apply totalCost_nonneg_exact.
    pose proof (netWallArea_nonneg i) as Hn.
    assert (Hc40 : 0 <= Qceil (wallPerimeter i / 0.40))
      by (apply Qceil_nonneg; inv_literals; lra).
    assert (Hc3 : 0 <= Qceil (wallPerimeter i / 3))
      by (apply Qceil_nonneg; inv_literals; lra).
    destruct system; run_calc; each_item; cbn [quantity unitPrice];
      (split;
       [ apply finalQty_nonneg; exact_arith;
         try (generalize dependent (Qceil (wallPerimeter i / 0.40)); intros c Hc40);
         try (generalize dependent (Qceil (wallPerimeter i / 3)); intros c Hc3);
         inv_literals; first [lra | nra]
       | apply Qlt_le_weak, or_default_pos; [apply Hv | reflexivity] ]).
  - intros i system prices (Ha & Hh & Hp & Hw & Hd) (Fh & Fp & Fw & Fd & Fc40 & Fc3) Hv.
    apply NN_leb, totalCost_nonneg_doubles.
    apply NN_leb in Ha, Hh, Hp, Hw, Hd.
    apply FIN_is_finite in Fh, Fp, Fw, Fd, Fc40, Fc3.
    cbn [num_div num_mul Math_ceil lit float_Number] in Fd, Fc40, Fc3.
    pose proof (NN_netWallArea i Hp Fp Hh Fh Fw Fd) as Hn.
    assert (Hc40 : NN (float_ceil (wallPerimeter i / float_lit 0.40)%float)) by nn64.
    assert (Hc3 : NN (float_ceil (wallPerimeter i / float_lit 3)%float)) by nn64.
    destruct system; run_calc; each_item; cbn [quantity unitPrice];
      (split;
       [ apply NN_finalQty;
         cbn [num_add num_div num_mul Math_ceil lit float_Number]; nn64
       | apply or_default_posfin64; [apply Hv | vm_compute; reflexivity] ]).
Qed.

Lemma totalCost_nonneg_witness :
  (0 <= plateArea ex_inputs /\ 0 <= wallHeight ex_inputs /\
   0 <= wallPerimeter ex_inputs /\ 0 <= windowArea ex_inputs /\
   0 <= doorCount ex_inputs) /\
  ({[ "win_dvh" := 0 ]} : gmap string Q) !! "win_dvh" = Some 0 /\
  0 <= totalCost (calculateMaterials ex_inputs SIP {[ "win_dvh" := 0 ]}) /\
  PrimFloat.leb zero
    (totalCost (calculateMaterials (N:=float) initialInputs METAL_PANEL
                  {[ "door_ext" := lit 410000.5 ]})) = true.
Proof.
  split; [repeat split; discriminate|].
  split; [apply lookup_singleton_eq|]. split.
  - apply (proj1 totalCost_nonneg ex_inputs SIP {[ "win_dvh" := 0 ]});
      try discriminate.
    intros k v Hk. apply lookup_singleton_Some in Hk as [_ <-]. apply Qle_refl.
  - apply (proj2 totalCost_nonneg initialInputs METAL_PANEL
                 {[ "door_ext" := lit 410000.5 ]}).
    + repeat split; vm_compute; reflexivity.
    + repeat split; vm_compute; reflexivity.
    + intros k v Hk. apply lookup_singleton_Some in Hk as [_ <-].
      split; vm_compute; reflexivity.
Defined.

(** ** The table of materials *)

Lemma tableRows_groups {N} (materials : list (MaterialItem N)) :
  tableRows materials =
    catMaterials Platea materials ++ catMaterials Muros materials ++
    catMaterials Aberturas materials ++ catMaterials Techo materials.
Proof.
  unfold tableRows, tableGroups. cbn [map concat].
  repeat match goal with
  | |- context [catMaterials ?c materials] =>
      let l := fresh "l" in
      generalize (catMaterials c materials); intros l; destruct l
  end; cbn [length Nat.eqb app]; rewrite ?app_nil_r; reflexivity.
Qed.

Lemma catMaterials_cons {N} (c : Category) (m : MaterialItem N)
    (l : list (MaterialItem N)) :
  catMaterials c (m :: l) =
    if decide (category m = c) then m :: catMaterials c l else catMaterials c l.
Proof. unfold catMaterials. now rewrite filter_cons. Qed.

(** X8. The table shows every material of the list exactly once, whatever
    the list: its rows, read from top to bottom, are a permutation of the
    list.  A category has a header exactly when some material has it, and
    its rows are then the materials of the category in list order. *)
Theorem tableRows_permutation {N} (materials : list (MaterialItem N)) :
  tableRows materials ≡ₚ materials /\
  forall cat rows,
    Some (cat, rows) ∈ tableGroups materials <->
    rows <> [] /\ rows = filter (fun m => category m = cat) materials.
Proof.
  split.
  - rewrite tableRows_groups.
    induction materials as [|m l IH]; [reflexivity|].
    rewrite !catMaterials_cons.
    destruct (category m); cbn [decide_rel decide];
      repeat match goal with
      | |- context [decide (?a = ?b)] => destruct (decide (a = b)); try congruence
      end.
    + cbn [app]. now constructor.
    + rewrite <- app_comm_cons, <- Permutation_middle. now constructor.
    + rewrite <- app_comm_cons, app_assoc, <- Permutation_middle, <- app_assoc.
      now constructor.
    + rewrite !app_assoc, <- Permutation_middle, <- !app_assoc. now constructor.
  - intros cat rows. unfold tableGroups. cbn [map]. fold (catMaterials cat materials).
    rewrite !elem_of_cons, elem_of_nil.
    split.
    + intros [E|[E|[E|[E|[]]]]];
        match type of E with
        | context [catMaterials ?c materials] =>
            destruct (catMaterials c materials) eqn:Ec; cbn [length Nat.eqb] in E;
            [discriminate E | injection E as E1 E2; subst cat rows; split; [discriminate | symmetry; exact Ec]]
        end.
    + intros [Hne ->].
      destruct cat; destruct (catMaterials _ materials) eqn:Ec; try congruence;
        cbn [length Nat.eqb]; rewrite ?Ec; cbn [length Nat.eqb]; tauto.
Qed.

(** X9. The table of a computed list has the four category blocks in the
    order Platea, Muros, Aberturas, Techo, none of them empty, although the
    list itself holds the roof-structure item before the openings: the
    table shows the slab items, the wall items, the opening items, and then
    the roof structure followed by the three common roof items. *)
Theorem table_of_calculateMaterials {N} `{Number N} (i : UserInputs N)
    (system : ConstructionSystem) (prices : gmap string N) :
  fourBlocks (tableRows (calculateMaterials i system prices)) /\
  exists (platea muros : list (MaterialItem N)) (roof : MaterialItem N)
         (aberturas techo : list (MaterialItem N)),
    calculateMaterials i system prices =
      platea ++ muros ++ [roof] ++ aberturas ++ techo /\
    tableGroups (calculateMaterials i system prices) =
      [Some (Platea, platea); Some (Muros, muros); Some (Aberturas, aberturas);
       Some (Techo, roof :: techo)].
Proof.
  split.
  - rewrite tableRows_groups.
    exists (catMaterials Platea (calculateMaterials i system prices)),
           (catMaterials Muros (calculateMaterials i system prices)),
           (catMaterials Aberturas (calculateMaterials i system prices)),
           (catMaterials Techo (calculateMaterials i system prices)).
    split; [reflexivity|].
    assert (HF : forall c, Forall (fun it : MaterialItem N => category it = c)
                           (catMaterials c (calculateMaterials i system prices))).
    { intros c. apply Forall_forall. intros x Hx. unfold catMaterials in Hx.
      apply list_elem_of_filter in Hx. tauto. }
    repeat (split; [apply HF|]).
    destruct system; run_calc; repeat split; intros E; vm_compute in E; discriminate E.
  - destruct system; run_calc.
    + eexists [_; _; _], [_; _; _], _, [_; _], [_; _; _]. split; reflexivity.
    + eexists [_; _; _], [_; _; _], _, [_; _], [_; _; _]. split; reflexivity.
    + eexists [_; _; _], [_; _; _; _; _], _, [_; _], [_; _; _]. split; reflexivity.
    + eexists [_; _; _], [_; _; _], _, [_; _], [_; _; _]. split; reflexivity.
    + eexists [_; _; _], [_; _; _; _], _, [_; _], [_; _; _]. split; reflexivity.
Qed.

(** ** The dimensions typed in the form *)

Lemma storable_or_zero (v : float) : storable (or_default (Some v) (lit 0)).
Proof.
  unfold or_default. cbn [ToBoolean lit float_Number]. unfold float_truthy.
  change (float_lit 0) with zero.
  destruct (is_zero v) eqn:Ez; cbn [orb negb]; [split; reflexivity|].
  destruct (is_nan v) eqn:En; cbn [orb negb]; [split; reflexivity|].
  split; [exact En | congruence].
Qed.

Lemma setField_fields {N} (P : N -> Prop) (name : string) (v : N)
    (prev : UserInputs N) :
  P v ->
  P (plateArea prev) /\ P (wallHeight prev) /\ P (wallPerimeter prev) /\
  P (windowArea prev) /\ P (doorCount prev) ->
  let next := setField name v prev in
  P (plateArea next) /\ P (wallHeight next) /\ P (wallPerimeter next) /\
  P (windowArea next) /\ P (doorCount next).
Proof.
  intros Hv (H1 & H2 & H3 & H4 & H5). cbv zeta. unfold setField.
  repeat match goal with
  | |- context [String.eqb ?a ?b] => destruct (String.eqb a b)
  end; cbn; auto.
Qed.

(** X10. Whatever texts are typed in the five dimension fields, in any
    order and number, no dimension of the state is NaN or the negative zero:
    a text that is not a number, and a zero of either sign, are stored as 0.
    An event of another field name changes no dimension. *)
Theorem inputs_never_NaN (parseFloat : string -> float)
    (events : list (string * string)) :
  let i := fold_left (fun prev e => handleInputChange parseFloat (fst e) (snd e) prev)
                     events initialInputs in
  (storable (plateArea i) /\ storable (wallHeight i) /\
   storable (wallPerimeter i) /\ storable (windowArea i) /\
   storable (doorCount i)) /\
  forall name value,
    name ∉ ["plateArea"; "wallHeight"; "wallPerimeter"; "windowArea"; "doorCount"] ->
    handleInputChange parseFloat name value i = i.
Proof.
  cbv zeta. split.
  - assert (H0 : storable (plateArea (initialInputs (N:=float))) /\
                 storable (wallHeight (initialInputs (N:=float))) /\
                 storable (wallPerimeter (initialInputs (N:=float))) /\
                 storable (windowArea (initialInputs (N:=float))) /\
                 storable (doorCount (initialInputs (N:=float))))
      by (repeat split; vm_compute; congruence).
    revert H0. generalize (initialInputs (N:=float)).
    induction events as [|[name value] events IH]; intros i0 H0; [exact H0|].
    cbn [fold_left fst snd]. apply IH. unfold handleInputChange.
    apply (setField_fields storable); [apply storable_or_zero | exact H0].
  - intros name value Hn. unfold handleInputChange, setField.
    repeat match goal with
    | |- context [String.eqb name ?b] =>
        destruct (String.eqb_spec name b) as [->|_];
        [exfalso; apply Hn; repeat first [apply list_elem_of_here | apply list_elem_of_further]|]
    end.
    reflexivity.
Qed.

(** ** A cleared field *)

(** X11. Clearing a field does not spoil the list: when the text typed in a
    field is not a number, or is a zero, the field is stored as 0 and the
    quantities computed from it alone are the double 0, not NaN: the slab
    and roof items for plateArea, the windows for windowArea, the doors for
    doorCount, whatever the other fields, the system and the overrides. *)
Theorem cleared_field_gives_zero (parseFloat : string -> float) (value : string)
    (prev : UserInputs float) (system : ConstructionSystem)
    (prices : gmap string float) :
  ToBoolean (parseFloat value) = false ->
  (forall it,
     it ∈ calculateMaterials (handleInputChange parseFloat "plateArea" value prev)
            system prices ->
     category it = Platea \/ category it = Techo -> quantity it = zero) /\
  (forall it,
     it ∈ calculateMaterials (handleInputChange parseFloat "windowArea" value prev)
            system prices ->
     id it = "win_dvh" -> quantity it = zero) /\
  (forall it,
     it ∈ calculateMaterials (handleInputChange parseFloat "doorCount" value prev)
            system prices ->
     id it = "door_ext" -> quantity it = zero).
Proof.
  intros Hv. unfold handleInputChange, or_default. rewrite Hv.
  change (lit 0) with zero.
  cbv [setField String.eqb Ascii.eqb Bool.eqb].
  split; [|split]; by_items; destruct system; run_calc; each_item;
    cbn [id category quantity plateArea windowArea doorCount]; intros E.
  all: try (destruct E as [E|E]; discriminate E).
  all: try discriminate E.
  all: vm_compute; reflexivity.
Qed.

Lemma cleared_field_gives_zero_witness :
  let parseFloat := fun _ : string => nan in
  ToBoolean (parseFloat "") = false /\
  (forall it,
     it ∈ calculateMaterials (handleInputChange parseFloat "plateArea" "" initialInputs)
            SIP ∅ ->
     category it = Platea \/ category it = Techo -> quantity it = zero).
Proof.
  cbv zeta. split; [reflexivity|].
  exact (proj1 (cleared_field_gives_zero (fun _ => nan) "" initialInputs SIP ∅
                  eq_refl)).
Defined.

(** ** Editing a price *)

Lemma manual_price_lookup (parseFloat : string -> float) (k newVal : string)
    (prices : gmap string float) (j : string) (d : float) :
  let val := parseFloat newVal in
  let prices' := handleManualPriceChange parseFloat k newVal prices in
  (j <> k -> or_default (prices' !! j) d = or_default (prices !! j) d) /\
  (j = k ->
   (PrimFloat.is_nan val = true ->
    or_default (prices' !! j) d = or_default (prices !! j) d) /\
   (ToBoolean val = true -> or_default (prices' !! j) d = val) /\
   (PrimFloat.is_zero val = true -> or_default (prices' !! j) d = d)).
Proof.
  cbv zeta. unfold handleManualPriceChange.
  cbn [ToBoolean float_Number]. unfold float_truthy.
  destruct (is_nan (parseFloat newVal)) eqn:En; cbn [negb].
  - split; [reflexivity|]. intros _. split; [reflexivity|].
    rewrite orb_true_r. split; [discriminate|].
    intros Hz. exfalso. revert En Hz. unfold is_zero. rewrite is_nan_spec, eqb_spec.
    destruct (Prim2SF (parseFloat newVal)); discriminate.
  - split.
    + intros Hj. now rewrite lookup_insert_ne.
    + intros ->. rewrite lookup_insert_eq. unfold or_default.
      cbn [ToBoolean float_Number]. unfold float_truthy. rewrite En, orb_false_r.
      split; [discriminate|]. split.
      * intros Hz. now rewrite Hz.
      * intros Hz. now rewrite Hz.
Qed.

(** X12. Editing the price of the material [k] in the table and computing
    again: every item keeps its id, name, unit, category and quantity, and the
    items of another id keep their price.  The item of id [k] shows the
    typed number when it is neither NaN nor zero (a negative number too); it
    keeps the price it had when the text is not a number; and it shows the
    built-in default of [k], whatever override it had, when the number is
    zero. *)
Theorem manual_price_round_trip (parseFloat : string -> float)
    (i : UserInputs float) (system : ConstructionSystem)
    (prices : gmap string float) (k newVal : string) :
  Forall2
    (fun it it' =>
       (id it' = id it /\ name it' = name it /\ unit it' = unit it /\
        category it' = category it /\ quantity it' = quantity it) /\
       (id it <> k -> unitPrice it' = unitPrice it) /\
       (id it = k ->
        (PrimFloat.is_nan (parseFloat newVal) = true ->
         unitPrice it' = unitPrice it) /\
        (ToBoolean (parseFloat newVal) = true ->
         unitPrice it' = parseFloat newVal) /\
        (PrimFloat.is_zero (parseFloat newVal) = true ->
         exists d : Q, defaultPrice k = Some d /\ unitPrice it' = lit d)))
    (calculateMaterials i system prices)
    (calculateMaterials i system
       (handleManualPriceChange parseFloat k newVal prices)).
Proof.
  destruct system; run_calc;
    repeat first [apply Forall2_nil_2 | apply Forall2_cons_2];
    cbn [id name unit category quantity unitPrice];
    (split; [repeat split|]);
    match goal with
    | |- context [or_default (prices !! ?j) ?d] =>
        destruct (manual_price_lookup parseFloat k newVal prices j d)
          as (Hne & Heq)
    end;
    (split; [exact Hne|]); intros <-;
    destruct (Heq eq_refl) as (H1 & H2 & H3);
    (split; [exact H1|]); (split; [exact H2|]);
    intros Hz; eexists; (split; [reflexivity|]); exact (H3 Hz).
Qed.

(** ** Texts *)

Lemma append_cons (c : Ascii.ascii) (a b : string) :
  String c a +:+ b = String c (a +:+ b).
Proof. reflexivity. Qed.

Lemma append_empty_l (b : string) : "" +:+ b = b.
Proof. reflexivity. Qed.

Lemma append_empty_r (a : string) : a +:+ "" = a.
Proof. induction a as [|c a IH]; [reflexivity|]. now rewrite append_cons, IH. Qed.

Lemma prefix_app (t s : string) :
  String.prefix t s = true <-> exists b, s = t +:+ b.
Proof.
  revert s. induction t as [|c t IH]; intros s.
  - split; [intros _; now exists s | intros _; destruct s; reflexivity].
  - destruct s as [|c' s]; cbn [String.prefix].
    + split; [discriminate | intros [b Hb]; discriminate Hb].
    + destruct (Ascii.ascii_dec c c') as [->|Hc].
      * rewrite IH. split; intros [b Hb]; exists b; rewrite append_cons in *; congruence.
      * split; [discriminate | intros [b Hb]; rewrite append_cons in Hb; congruence].
Qed.

(** [includes] finds exactly the occurrences: [s.includes(search)] holds when
    [s] is some text, then [search], then some text. *)
Lemma includes_spec (s search : string) :
  includes s search = true <-> exists a b, s = a +:+ search +:+ b.
Proof.
  induction s as [|c s IH]; cbn [includes].
  - destruct (String.prefix search "") eqn:E.
    + split; [intros _|reflexivity]. apply prefix_app in E as [b Hb].
      exists "", b. exact Hb.
    + split; [discriminate|]. intros (a & b & Hab).
      destruct a as [|c' a]; [|discriminate Hab].
      rewrite append_empty_l in Hab.
      assert (String.prefix search "" = true) by (apply prefix_app; now exists b).
      congruence.
  - destruct (String.prefix search (String c s)) eqn:E.
    + split; [intros _|reflexivity]. apply prefix_app in E as [b Hb].
      exists "", b. exact Hb.
    + rewrite IH. split.
      * intros (a & b & ->). now exists (String c a), b.
      * intros (a & b & Hab). destruct a as [|c' a].
        -- rewrite append_empty_l in Hab.
           assert (String.prefix search (String c s) = true)
             by (apply prefix_app; now exists b).
           congruence.
        -- rewrite append_cons in Hab. injection Hab as _ ->. now exists a, b.
Qed.

Lemma includes_empty (s : string) : includes s "" = true.
Proof. destruct s; reflexivity. Qed.

Lemma includes_refl (s : string) : includes s s = true.
Proof.
  apply includes_spec. exists "", "".
  now rewrite append_empty_l, append_empty_r.
Qed.

(** ** Prices mapped back to ids *)

Section MapBack.
Context {N : Type}.
Implicit Types (pricesMap : list (string * JsonValue N)).
Implicit Types (materials : list (MaterialItem N)).

Lemma idPriceMap_fold materials pricesMap :
  idPriceMap materials pricesMap = fold_left (forEach_step pricesMap) materials ∅.
Proof.
  unfold idPriceMap. generalize (∅ : gmap string N).
  induction materials as [|m l IH]; intros acc; [reflexivity|].
  cbn [fold_left]. rewrite IH. f_equal.
  unfold forEach_step, matchedPrice.
  destruct (findKey pricesMap (name m)) as [key|]; [|reflexivity].
  destruct (negb (String.eqb key "")); [|reflexivity].
  destruct (assoc key pricesMap) as [[]|]; reflexivity.
Qed.

Lemma fold_step_untouched pricesMap materials (acc : gmap string N) (j : string) :
  j ∉ map id materials ->
  fold_left (forEach_step pricesMap) materials acc !! j = acc !! j.
Proof.
  revert acc. induction materials as [|m l IH]; intros acc Hj; [reflexivity|].
  cbn [fold_left]. cbn [map] in Hj. apply not_elem_of_cons in Hj as [Hm Hl].
  rewrite IH by exact Hl. unfold forEach_step.
  destruct (matchedPrice pricesMap (name m)); [|reflexivity].
  now rewrite lookup_insert_ne.
Qed.

Lemma fold_step_sound pricesMap materials (acc : gmap string N) (j : string) (v : N) :
  fold_left (forEach_step pricesMap) materials acc !! j = Some v ->
  acc !! j = Some v \/
  exists m, m ∈ materials /\ id m = j /\ matchedPrice pricesMap (name m) = Some v.
Proof.
  revert acc. induction materials as [|m l IH]; intros acc Hv; [now left|].
  cbn [fold_left] in Hv. apply IH in Hv as [Hv|(m' & Hin & Hid & Hm)].
  - unfold forEach_step in Hv.
    destruct (matchedPrice pricesMap (name m)) as [p|] eqn:E; [|now left].
    destruct (decide (id m = j)) as [<-|Hne].
    + rewrite lookup_insert_eq in Hv. injection Hv as ->.
      right. exists m. repeat split; [apply list_elem_of_here | exact E].
    + rewrite lookup_insert_ne in Hv by exact Hne. now left.
  - right. exists m'. repeat split; [now apply list_elem_of_further | exact Hid | exact Hm].
Qed.

Lemma fold_step_lookup pricesMap materials (acc : gmap string N) (m : MaterialItem N) :
  NoDup (map id materials) -> m ∈ materials ->
  fold_left (forEach_step pricesMap) materials acc !! id m =
    match matchedPrice pricesMap (name m) with
    | Some price => Some price
    | None => acc !! id m
    end.
Proof.
  revert acc. induction materials as [|m0 l IH]; intros acc Hnd Hin.
  - now apply elem_of_nil in Hin.
  - cbn [map] in Hnd. apply NoDup_cons in Hnd as [Hm0 Hl].
    cbn [fold_left]. apply elem_of_cons in Hin as [->|Hin].
    + rewrite fold_step_untouched by exact Hm0. unfold forEach_step.
      destruct (matchedPrice pricesMap (name m0)); [|reflexivity].
      apply lookup_insert_eq.
    + rewrite IH by assumption.
      destruct (matchedPrice pricesMap (name m)); [reflexivity|].
      unfold forEach_step.
      destruct (matchedPrice pricesMap (name m0)); [|reflexivity].
      apply lookup_insert_ne. intros E. apply Hm0. rewrite E.
      now apply list_elem_of_fmap_2.
Qed.

Lemma idPriceMap_lookup materials pricesMap (m : MaterialItem N) :
  NoDup (map id materials) -> m ∈ materials ->
  idPriceMap materials pricesMap !! id m = matchedPrice pricesMap (name m).
Proof.
  intros Hnd Hin. rewrite idPriceMap_fold, fold_step_lookup by assumption.
  rewrite lookup_empty. now destruct (matchedPrice pricesMap (name m)).
Qed.

Lemma assoc_elem_of {A} (k : string) (a : A) (l : list (string * A)) :
  assoc k l = Some a -> (k, a) ∈ l.
Proof.
  induction l as [|[k' a'] l IH]; cbn [assoc]; [discriminate|].
  destruct (String.eqb_spec k k') as [->|_].
  - intros [= ->]. apply list_elem_of_here.
  - intros Hl. apply list_elem_of_further. now apply IH.
Qed.

Lemma assoc_NoDup {A} (k : string) (a : A) (l : list (string * A)) :
  NoDup (map fst l) -> (k, a) ∈ l -> assoc k l = Some a.
Proof.
  induction l as [|[k' a'] l IH]; cbn [assoc map fst]; intros Hnd Hin.
  - now apply elem_of_nil in Hin.
  - apply NoDup_cons in Hnd as [Hk Hl].
    apply elem_of_cons in Hin as [[= -> ->]|Hin].
    + now rewrite String.eqb_refl.
    + destruct (String.eqb_spec k k') as [->|_]; [|now apply IH].
      exfalso. apply Hk. now apply (list_elem_of_fmap_2 fst _ (k', a)).
Qed.

Lemma matchedPrice_sound pricesMap (mname : string) (v : N) :
  matchedPrice pricesMap mname = Some v ->
  exists key, findKey pricesMap mname = Some key /\ key <> "" /\
    (key, JNumber v) ∈ pricesMap /\
    (includes key mname = true \/ includes mname key = true).
Proof.
  unfold matchedPrice. destruct (findKey pricesMap mname) as [key|] eqn:Ek;
    [|discriminate].
  destruct (String.eqb_spec key "") as [->|Hne]; cbn [negb]; [discriminate|].
  destruct (assoc key pricesMap) as [[| |p| |]|] eqn:Ea; try discriminate.
  intros [= ->]. exists key. split; [reflexivity|]. split; [exact Hne|].
  split; [now apply assoc_elem_of|].
  unfold findKey in Ek. apply find_some in Ek as [_ Hm].
  now apply orb_true_iff in Hm.
Qed.

End MapBack.

Lemma calculateMaterials_ids_NoDup {N} `{Number N} (i : UserInputs N)
    (system : ConstructionSystem) (prices : gmap string N) :
  NoDup (map id (calculateMaterials i system prices)).
Proof.
  replace (map id (calculateMaterials i system prices)) with (materialIds system)
    by (destruct system; reflexivity).
  apply (bool_decide_unpack _). destruct system; vm_compute; reflexivity.
Qed.

(** X13. Every price that [fetchMaterialPrices] maps back belongs to a
    material of the list it was given and is a number of the response: an
    entry under the id [j] with value [v] means that a material of id [j] is
    in the list and that the response holds the number [v] under a
    non-empty key that contains the name of this material or is contained
    in it. *)
Theorem idPriceMap_sound {N} (materials : list (MaterialItem N))
    (pricesMap : list (string * JsonValue N)) (j : string) (v : N) :
  idPriceMap materials pricesMap !! j = Some v ->
  exists m key,
    m ∈ materials /\ id m = j /\ key <> "" /\ (key, JNumber v) ∈ pricesMap /\
    (includes key (name m) = true \/ includes (name m) key = true).
Proof.
  rewrite idPriceMap_fold. intros Hv.
  apply fold_step_sound in Hv as [Hv|(m & Hin & Hid & Hm)].
  - rewrite lookup_empty in Hv. discriminate Hv.
  - apply matchedPrice_sound in Hm as (key & _ & Hne & Hk & Hinc).
    now exists m, key.
Qed.

Lemma idPriceMap_sound_witness :
  idPriceMap (calculateMaterials ex_inputs TRADITIONAL ∅)
             [("Malla Acero Simag (15x15)", JNumber 9100)] !! "mesh_steel"
    = Some 9100 /\
  exists m key,
    m ∈ calculateMaterials ex_inputs TRADITIONAL ∅ /\ id m = "mesh_steel" /\
    key <> "" /\
    (key, JNumber 9100) ∈ [("Malla Acero Simag (15x15)", JNumber (N:=Q) 9100)] /\
    (includes key (name m) = true \/ includes (name m) key = true).
Proof.
  assert (E : idPriceMap (calculateMaterials ex_inputs TRADITIONAL ∅)
                [("Malla Acero Simag (15x15)", JNumber 9100)] !! "mesh_steel"
              = Some 9100) by (vm_compute; reflexivity).
  split; [exact E|]. exact (idPriceMap_sound _ _ _ _ E).
Defined.

(** X14. The first key of the response that matches a material decides its
    price, whatever the later keys are, the material's exact name among
    them: for a response whose first key contains the name of a material of
    the computed list, or is contained in it, the material gets the value of
    this key when the key is not empty and the value is a number, and no
    price otherwise. *)
Theorem first_matching_key_decides {N} `{Number N} (i : UserInputs N)
    (system : ConstructionSystem) (prices : gmap string N)
    (key : string) (value : JsonValue N) (rest : list (string * JsonValue N))
    (m : MaterialItem N) :
  m ∈ calculateMaterials i system prices ->
  includes key (name m) || includes (name m) key = true ->
  idPriceMap (calculateMaterials i system prices) ((key, value) :: rest) !! id m =
    if String.eqb key "" then None
    else match value with JNumber v => Some v | _ => None end.
Proof.
  intros Hin Hm.
  rewrite idPriceMap_lookup by (try apply calculateMaterials_ids_NoDup; exact Hin).
  unfold matchedPrice, findKey. cbn [map fst List.find]. rewrite Hm.
  destruct (String.eqb key "") eqn:E; cbn [negb]; [reflexivity|].
  cbn [assoc]. rewrite String.eqb_refl. now destruct value.
Qed.

Lemma first_matching_key_decides_witness :
  let m := {| id := "pgu_100"; name := "Perfil PGU 100x35x0.9mm (Soleras)";
              unit := "ml";
              quantity := finalQty ((40 * 2 + 8 * 2) * 1.05);
              unitPrice := 7200; category := Muros |} in
  let rest := [("Perfil PGU 100x35x0.9mm (Soleras)", JNumber 7900)] in
  m ∈ calculateMaterials ex_inputs STEEL_FRAME ∅ /\
  includes "Perfil" (name m) || includes (name m) "Perfil" = true /\
  idPriceMap (calculateMaterials ex_inputs STEEL_FRAME ∅)
             (("Perfil", JNumber 5000) :: rest) !! id m = Some 5000.
Proof.
  cbv zeta.
  assert (Hin : {| id := "pgu_100"; name := "Perfil PGU 100x35x0.9mm (Soleras)";
                   unit := "ml";
                   quantity := finalQty ((40 * 2 + 8 * 2) * 1.05);
                   unitPrice := 7200; category := Muros |}
                ∈ calculateMaterials ex_inputs STEEL_FRAME ∅).
  { run_calc. do 4 apply list_elem_of_further. apply list_elem_of_here. }
  split; [exact Hin|]. split; [reflexivity|].
  exact (first_matching_key_decides ex_inputs STEEL_FRAME ∅ "Perfil" (JNumber 5000)
           _ _ Hin eq_refl).
Defined.

(** X15. A response whose first key is the empty text gives no price at
    all: the empty key matches every material and is then discarded, so
    the mapping returned is empty, whatever the materials and whatever the
    other entries of the response. *)
Theorem empty_first_key_discards_all {N} (materials : list (MaterialItem N))
    (value : JsonValue N) (rest : list (string * JsonValue N)) :
  idPriceMap materials (("", value) :: rest) = ∅.
Proof.
  rewrite idPriceMap_fold. generalize (∅ : gmap string N).
  induction materials as [|m l IH]; intros acc; [reflexivity|].
  cbn [fold_left]. rewrite IH. unfold forEach_step, matchedPrice, findKey.
  cbn [map fst List.find]. rewrite includes_empty, orb_true_r. reflexivity.
Qed.

(** ** A price update, end to end *)

Lemma calculateMaterials_names {N} `{Number N} (i : UserInputs N)
    (system : ConstructionSystem) (prices : gmap string N) :
  map name (calculateMaterials i system prices) = materialNames system.
Proof. destruct system; reflexivity. Qed.

Lemma materialNames_apart (system : ConstructionSystem) :
  namesApart (materialNames system) = true.
Proof. destruct system; vm_compute; reflexivity. Qed.

Lemma names_apart {N} `{Number N} (i : UserInputs N) (system : ConstructionSystem)
    (prices : gmap string N) (m : MaterialItem N) (key : string) :
  m ∈ calculateMaterials i system prices ->
  key ∈ map name (calculateMaterials i system prices) ->
  name m <> "" /\
  (includes key (name m) || includes (name m) key = true -> key = name m).
Proof.
  intros Hm Hk. rewrite calculateMaterials_names in Hk.
  assert (Hn : name m ∈ materialNames system).
  { rewrite <- (calculateMaterials_names i system prices).
    now apply list_elem_of_fmap_2. }
  pose proof (materialNames_apart system) as Ha. unfold namesApart in Ha.
  rewrite forallb_forall in Ha.
  apply list_elem_of_In in Hn, Hk.
  split.
  - specialize (Ha _ Hn). apply andb_true_iff in Ha as [Ha _].
    intros E. rewrite E in Ha. discriminate Ha.
  - intros Hinc. specialize (Ha _ Hk). apply andb_true_iff in Ha as [_ Ha].
    rewrite forallb_forall in Ha. specialize (Ha _ Hn).
    rewrite Hinc in Ha. cbn [implb] in Ha. now apply String.eqb_eq in Ha.
Qed.

Lemma find_unique (f : string -> bool) (keys : list string) (x : string) :
  f x = true -> (forall k, k ∈ keys -> f k = true -> k = x) ->
  List.find f keys = if bool_decide (x ∈ keys) then Some x else None.
Proof.
  intros Hx Hu. induction keys as [|k keys IH]; cbn [List.find].
  - reflexivity.
  - destruct (f k) eqn:Ek.
    + rewrite (Hu k (list_elem_of_here _ _) Ek).
      rewrite bool_decide_eq_true_2 by apply list_elem_of_here. reflexivity.
    + rewrite IH by (intros k' Hk'; apply Hu; now apply list_elem_of_further).
      destruct (decide (x = k)) as [->|Hne]; [congruence|].
      apply (f_equal (fun b : bool => if b then Some x else None)).
      apply bool_decide_ext. rewrite elem_of_cons. tauto.
Qed.

Lemma assoc_None {A} (k : string) (l : list (string * A)) :
  k ∉ map fst l -> assoc k l = None.
Proof.
  induction l as [|[k' a] l IH]; cbn [assoc map fst]; [reflexivity|].
  intros Hk. apply not_elem_of_cons in Hk as [Hne Hl].
  destruct (String.eqb_spec k k'); [contradiction | now apply IH].
Qed.

(** With keys that are names of the list, a material is matched by the key
    that is its name, and by no other. *)
Lemma matchedPrice_exact {N} `{Number N} (i : UserInputs N)
    (system : ConstructionSystem) (prices : gmap string N)
    (pricesMap : list (string * JsonValue N)) (m : MaterialItem N) :
  (forall key, key ∈ map fst pricesMap ->
     key ∈ map name (calculateMaterials i system prices)) ->
  m ∈ calculateMaterials i system prices ->
  matchedPrice pricesMap (name m) =
    match assoc (name m) pricesMap with
    | Some (JNumber v) => Some v
    | _ => None
    end.
Proof.
  intros Hkeys Hm. unfold matchedPrice, findKey.
  rewrite (find_unique _ _ (name m)).
  - destruct (decide (name m ∈ map fst pricesMap)) as [Hin|Hout].
    + rewrite bool_decide_eq_true_2 by exact Hin.
      destruct (names_apart i system prices m (name m) Hm
                  (list_elem_of_fmap_2 name _ _ Hm)) as [Hne _].
      apply String.eqb_neq in Hne. rewrite Hne. reflexivity.
    + rewrite bool_decide_eq_false_2 by exact Hout.
      now rewrite assoc_None.
  - now rewrite includes_refl.
  - intros k Hk Hinc.
    now apply (names_apart i system prices m k Hm (Hkeys k Hk)).
Qed.

Lemma Forall2_elem_of_l {A B} (R : A -> B -> Prop) (l : list A) (l' : list B) :
  Forall2 R l l' -> Forall2 (fun x y => x ∈ l /\ R x y) l l'.
Proof.
  intros HR.
  assert (G : forall l0 : list A, (forall x, x ∈ l -> x ∈ l0) ->
                Forall2 (fun x y => x ∈ l0 /\ R x y) l l').
  { induction HR as [|x y l l' Hxy HR IH]; intros l0 Hl0; constructor.
    - split; [apply Hl0, list_elem_of_here | exact Hxy].
    - apply IH. intros z Hz. now apply Hl0, list_elem_of_further. }
  now apply G.
Qed.

(** Two computations that differ in the override mapping only, side by
    side. *)
Lemma calculateMaterials_prices {N} `{Number N} (i : UserInputs N)
    (system : ConstructionSystem) (prices prices' : gmap string N) :
  Forall2
    (fun it it' =>
       (id it' = id it /\ name it' = name it /\ unit it' = unit it /\
        category it' = category it /\ quantity it' = quantity it) /\
       exists d : Q, defaultPrice (id it) = Some d /\
         unitPrice it = or_default (prices !! id it) (lit d) /\
         unitPrice it' = or_default (prices' !! id it) (lit d))
    (calculateMaterials i system prices) (calculateMaterials i system prices').
Proof.
  destruct system; run_calc;
    repeat first [apply Forall2_nil_2 | apply Forall2_cons_2];
    cbn [id name unit category quantity unitPrice];
    (split; [repeat split|]); eexists; repeat split; reflexivity.
Qed.

(** X16. A price update whose response uses names of the listed materials
    as its keys, each once: after the update and the computation that
    follows it, every item has kept its id, name, unit, category and
    quantity; an item whose name holds a number in the response shows this
    number when it is truthy and the built-in default of its id when it is
    not; and an item without a number under its name has kept its price. *)
Theorem price_update_round_trip {N} `{Number N} (i : UserInputs N)
    (system : ConstructionSystem) (prices : gmap string N)
    (pricesMap : list (string * JsonValue N)) :
  NoDup (map fst pricesMap) ->
  (forall key, key ∈ map fst pricesMap ->
     key ∈ map name (calculateMaterials i system prices)) ->
  Forall2
    (fun it it' =>
       (id it' = id it /\ name it' = name it /\ unit it' = unit it /\
        category it' = category it /\ quantity it' = quantity it) /\
       (forall v, (name it, JNumber v) ∈ pricesMap ->
          (ToBoolean v = true -> unitPrice it' = v) /\
          (ToBoolean v = false ->
           exists d : Q, defaultPrice (id it) = Some d /\ unitPrice it' = lit d)) /\
       ((forall v, (name it, JNumber v) ∉ pricesMap) -> unitPrice it' = unitPrice it))
    (calculateMaterials i system prices)
    (calculateMaterials i system
       (mergePrices (Some (idPriceMap (calculateMaterials i system prices) pricesMap))
                    prices)).
Proof.
  intros Hnd Hkeys.
  eapply Forall2_impl;
    [apply Forall2_elem_of_l, calculateMaterials_prices|].
  intros it it' (Hin & Hsame & d & Hd & Hp & Hp'). cbn beta in *.
  split; [exact Hsame|].
  unfold mergePrices in Hp'.
  pose proof (idPriceMap_lookup _ pricesMap it
                (calculateMaterials_ids_NoDup i system prices) Hin) as Hl.
  rewrite (matchedPrice_exact i system prices pricesMap it Hkeys Hin) in Hl.
  split.
  - intros v Hv. apply (assoc_NoDup _ _ _ Hnd) in Hv. rewrite Hv in Hl.
    rewrite (lookup_union_Some_l _ _ _ _ Hl) in Hp'. unfold or_default in Hp'.
    split; intros Hb; rewrite Hb in Hp'; [exact Hp'|].
    exists d. now split.
  - intros Hno. rewrite Hp, Hp'. f_equal.
    apply lookup_union_r.
    rewrite Hl. destruct (assoc (name it) pricesMap) as [[| |v| |]|] eqn:Ea;
      try reflexivity.
    exfalso. apply (Hno v). now apply assoc_elem_of.
Qed.

Lemma price_update_round_trip_witness :
  let pricesMap : list (string * JsonValue Q) :=
    [("Hormigón H17 Elaborado", JNumber 200000);
     ("Puerta Exterior Seguridad", JString "consultar")] in
  NoDup (map fst pricesMap) /\
  (forall key, key ∈ map fst pricesMap ->
     key ∈ map name (calculateMaterials ex_inputs TRADITIONAL ∅)) /\
  Forall2
    (fun it it' =>
       (id it' = id it /\ name it' = name it /\ unit it' = unit it /\
        category it' = category it /\ quantity it' = quantity it) /\
       (forall v, (name it, JNumber v) ∈ pricesMap ->
          (ToBoolean v = true -> unitPrice it' = v) /\
          (ToBoolean v = false ->
           exists d : Q, defaultPrice (id it) = Some d /\ unitPrice it' = lit d)) /\
       ((forall v, (name it, JNumber v) ∉ pricesMap) -> unitPrice it' = unitPrice it))
    (calculateMaterials ex_inputs TRADITIONAL ∅)
    (calculateMaterials ex_inputs TRADITIONAL
       (mergePrices
          (Some (idPriceMap (calculateMaterials ex_inputs TRADITIONAL ∅) pricesMap))
          ∅)).
Proof.
  cbv zeta.
  assert (Hnd : NoDup (map fst [("Hormigón H17 Elaborado", JNumber (N:=Q) 200000);
                                ("Puerta Exterior Seguridad", JString "consultar")]))
    by (apply (bool_decide_unpack _); vm_compute; reflexivity).
  assert (Hk : forall key,
             key ∈ map fst [("Hormigón H17 Elaborado", JNumber (N:=Q) 200000);
                            ("Puerta Exterior Seguridad", JString "consultar")] ->
             key ∈ map name (calculateMaterials ex_inputs TRADITIONAL ∅)).
  { intros key Hkey. cbn [map fst] in Hkey.
    apply elem_of_cons in Hkey as [->|Hkey];
      [|apply elem_of_cons in Hkey as [->|Hkey]; [|now apply elem_of_nil in Hkey]];
      apply (bool_decide_unpack _); vm_compute; reflexivity. }
  split; [exact Hnd|]. split; [exact Hk|].
  exact (price_update_round_trip ex_inputs TRADITIONAL ∅ _ Hnd Hk).
Defined.

(** ** Maps of the language *)

Section MapLemmas.
Context {V : Type}.
Implicit Types (m : list (string * V)) (k : string) (v : V).

Lemma Map_set_keys k v m :
  map fst (Map_set k v m) =
    map fst m ++ (if bool_decide (k ∈ map fst m) then [] else [k]).
Proof.
  induction m as [|[k' v'] m IH]; cbn [Map_set map fst app]; [reflexivity|].
  destruct (String.eqb_spec k' k) as [->|Hne]; cbn [map fst].
  - rewrite bool_decide_eq_true_2 by apply list_elem_of_here.
    now rewrite app_nil_r.
  - rewrite IH. cbn [app]. f_equal. f_equal.
    apply (f_equal (fun b : bool => if b then [] else [k])).
    apply bool_decide_ext. rewrite elem_of_cons. split; [tauto|].
    intros [E|E]; [congruence | exact E].
Qed.

Lemma Map_set_fresh k v m : k ∉ map fst m -> Map_set k v m = m ++ [(k, v)].
Proof.
  induction m as [|[k' v'] m IH]; cbn [Map_set map fst app]; [reflexivity|].
  intros Hk. apply not_elem_of_cons in Hk as [Hne Hk].
  destruct (String.eqb_spec k' k) as [->|_]; [congruence|].
  now rewrite IH.
Qed.

Lemma Map_set_NoDup k v m : NoDup (map fst m) -> NoDup (map fst (Map_set k v m)).
Proof.
  intros Hnd. rewrite Map_set_keys.
  destruct (decide (k ∈ map fst m)) as [Hin|Hout].
  - rewrite bool_decide_eq_true_2 by exact Hin. now rewrite app_nil_r.
  - rewrite bool_decide_eq_false_2 by exact Hout.
    apply NoDup_app. split; [exact Hnd|]. split.
    + intros x Hx Hx'. apply list_elem_of_singleton in Hx'. now subst.
    + apply NoDup_singleton.
Qed.

Lemma Map_set_assoc k v m k' :
  assoc k' (Map_set k v m) = if String.eqb k' k then Some v else assoc k' m.
Proof.
  induction m as [|[k0 v0] m IH]; cbn [Map_set assoc].
  - reflexivity.
  - destruct (String.eqb_spec k0 k) as [->|Hne]; cbn [assoc].
    + destruct (String.eqb k' k); reflexivity.
    + rewrite IH. destruct (String.eqb_spec k' k0) as [->|_]; [|reflexivity].
      destruct (String.eqb_spec k0 k); [contradiction | reflexivity].
Qed.

Lemma Map_fold_NoDup entries m :
  NoDup (map fst m) -> NoDup (map fst (Map_fold entries m)).
Proof.
  revert m. induction entries as [|e entries IH]; intros m Hm; [exact Hm|].
  apply IH. now apply Map_set_NoDup.
Qed.

Lemma Map_fold_keys entries m :
  exists extra, map fst (Map_fold entries m) = map fst m ++ extra.
Proof.
  revert m. induction entries as [|e entries IH]; intros m.
  - exists []. now rewrite app_nil_r.
  - destruct (IH (Map_set (fst e) (snd e) m)) as [extra He].
    cbn [Map_fold fold_left]. unfold Map_fold in He. rewrite He, Map_set_keys.
    rewrite <- app_assoc. now eexists.
Qed.

Lemma Map_fold_assoc entries m k :
  assoc k (Map_fold entries m) =
    match assoc k (rev entries) with
    | Some v => Some v
    | None => assoc k m
    end.
Proof.
  revert m. induction entries as [|[k0 v0] entries IH]; intros m; [reflexivity|].
  cbn [Map_fold fold_left fst snd]. unfold Map_fold in IH. rewrite IH.
  cbn [rev]. rewrite Map_set_assoc.
  assert (A : forall l : list (string * V),
             assoc k (l ++ [(k0, v0)]) =
               match assoc k l with
               | Some v => Some v
               | None => if String.eqb k k0 then Some v0 else None
               end).
  { induction l as [|[k1 v1] l IHl]; cbn [app assoc]; [reflexivity|].
    destruct (String.eqb k k1); [reflexivity | exact IHl]. }
  rewrite A. destruct (assoc k (rev entries)); [reflexivity|].
  destruct (String.eqb k k0); reflexivity.
Qed.

Lemma Map_fold_fresh entries m :
  NoDup (map fst m ++ map fst entries) -> Map_fold entries m = m ++ entries.
Proof.
  revert m. induction entries as [|[k v] entries IH]; intros m Hnd.
  - now rewrite app_nil_r.
  - cbn [Map_fold fold_left fst snd]. unfold Map_fold in IH.
    cbn [map fst] in Hnd.
    assert (Hk : k ∉ map fst m).
    { apply NoDup_app in Hnd as (_ & Hd & _). intros Hin.
      apply (Hd k Hin), list_elem_of_here. }
    rewrite Map_set_fresh by exact Hk. rewrite IH.
    + now rewrite <- app_assoc.
    + rewrite map_app. cbn [map fst]. rewrite <- app_assoc. exact Hnd.
Qed.

End MapLemmas.

Lemma elem_of_rev {A} (x : A) (l : list A) : x ∈ rev l <-> x ∈ l.
Proof. rewrite !list_elem_of_In. symmetry. apply in_rev. Qed.

(** ** The sources of the suppliers *)

Import Grounding.

Lemma keyed_keys (l : list Source) : map fst (keyed l) = map source_uri l.
Proof. unfold keyed. rewrite map_map. reflexivity. Qed.

Lemma keyed_values (l : list Source) : map snd (keyed l) = l.
Proof. unfold keyed. rewrite map_map. apply map_id. Qed.

Lemma keyed_assoc (l : list Source) (k : string) :
  assoc k (keyed l) = List.find (fun s => String.eqb k (source_uri s)) l.
Proof.
  induction l as [|s l IH]; cbn [keyed map assoc List.find]; [reflexivity|].
  destruct (String.eqb k (source_uri s)); [reflexivity | exact IH].
Qed.

(** Every entry of the Map is keyed by the uri of its source. *)
Lemma Map_new_keyed (l : list Source) :
  Forall (fun e => fst e = source_uri (snd e)) (Map_new (keyed l)).
Proof.
  apply Forall_forall. intros [k s] He. cbn [fst snd].
  assert (Hnd : NoDup (map fst (Map_new (keyed l))))
    by (apply (Map_fold_NoDup (keyed l) []), NoDup_nil_2).
  apply (assoc_NoDup _ _ _ Hnd) in He.
  change (Map_new (keyed l)) with (Map_fold (keyed l) []) in He.
  rewrite Map_fold_assoc in He. cbn [assoc] in He.
  destruct (assoc k (rev (keyed l))) as [s'|] eqn:E; [|discriminate He].
  injection He as ->. apply assoc_elem_of in E.
  apply (proj1 (elem_of_rev _ _)) in E. unfold keyed in E.
  apply list_elem_of_fmap in E as (s0 & [= -> ->] & _). reflexivity.
Qed.

Lemma uniqueSources_uris (l : list Source) :
  map source_uri (uniqueSources l) = map fst (Map_new (keyed l)).
Proof.
  unfold uniqueSources, Map_values. fold (keyed l).
  pose proof (Map_new_keyed l) as H. induction H as [|[k s] m Hk _ IH]; [reflexivity|].
  cbn [map fst snd] in *. now rewrite IH, Hk.
Qed.

Lemma uniqueSources_elem_of (l : list Source) (s : Source) :
  s ∈ uniqueSources l <->
  List.find (fun s' => String.eqb (source_uri s) (source_uri s')) (rev l) = Some s.
Proof.
  assert (Hnd : NoDup (map fst (Map_new (keyed l))))
    by (apply (Map_fold_NoDup (keyed l) []), NoDup_nil_2).
  assert (Ha : forall k, assoc k (Map_new (keyed l)) =
                         List.find (fun s' => String.eqb k (source_uri s')) (rev l)).
  { intros k. change (Map_new (keyed l)) with (Map_fold (keyed l) []).
    rewrite Map_fold_assoc. cbn [assoc]. unfold keyed at 1. rewrite <- map_rev.
    fold (keyed (rev l)). rewrite keyed_assoc.
    now destruct (List.find _ (rev l)). }
  unfold uniqueSources, Map_values. fold (keyed l). split.
  - intros Hs. apply list_elem_of_fmap in Hs as ([k s'] & -> & He). cbn [snd].
    pose proof (Map_new_keyed l) as Hk. rewrite Forall_forall in Hk.
    specialize (Hk _ He). cbn [fst snd] in Hk. subst k.
    rewrite <- Ha. now apply assoc_NoDup.
  - intros Hf. rewrite <- Ha in Hf. apply assoc_elem_of in Hf.
    now apply (list_elem_of_fmap_2 snd _ (source_uri s, s)).
Qed.

(** X17. The sources that [findSuppliers] returns hold each address once:
    no two of them have the same uri; each of them has a uri and a title
    that are not empty and comes from a chunk of the response; and every
    chunk that has a web part with a non-empty uri and a non-empty title
    has its uri among them. *)
Theorem supplierSources_unique (groundingChunks : option (list Chunk)) :
  NoDup (map source_uri (supplierSources groundingChunks)) /\
  (forall s, s ∈ supplierSources groundingChunks ->
     source_uri s <> "" /\ source_title s <> "" /\
     exists c, c ∈ default [] groundingChunks /\
       web c = Some {| uri := Some (source_uri s); title := Some (source_title s) |}) /\
  (forall c u t, c ∈ default [] groundingChunks ->
     web c = Some {| uri := Some u; title := Some t |} -> u <> "" -> t <> "" ->
     u ∈ map source_uri (supplierSources groundingChunks)).
Proof.
  unfold supplierSources. set (chunks := default [] groundingChunks).
  assert (Hsrc : forall s, s ∈ sources chunks <->
            source_uri s <> "" /\ source_title s <> "" /\
            exists c, c ∈ chunks /\
              web c = Some {| uri := Some (source_uri s);
                              title := Some (source_title s) |}).
  { intros s. unfold sources. rewrite list_elem_of_omap. split.
    - intros (c & Hc & Hs). destruct c as [[[[u|] [t|]]|]]; cbn in Hs;
        try discriminate Hs.
      destruct (String.eqb_spec u "") as [->|Hu]; cbn in Hs; [discriminate Hs|].
      destruct (String.eqb_spec t "") as [->|Ht]; cbn in Hs; [discriminate Hs|].
      injection Hs as <-. cbn. split; [exact Hu|]. split; [exact Ht|].
      eexists. split; [exact Hc | reflexivity].
    - intros (Hu & Ht & c & Hc & Hw). exists c. split; [exact Hc|].
      rewrite Hw. cbn. apply String.eqb_neq in Hu, Ht. rewrite Hu, Ht.
      cbn. now destruct s. }
  split; [|split].
  - rewrite uniqueSources_uris. apply (Map_fold_NoDup _ []), NoDup_nil_2.
  - intros s Hs. apply Hsrc. apply uniqueSources_elem_of in Hs.
    apply find_some in Hs as [Hs _]. apply list_elem_of_In in Hs.
    now apply (proj1 (elem_of_rev _ _)) in Hs.
  - intros c u t Hc Hw Hu Ht.
    assert (Hs : {| source_title := t; source_uri := u |} ∈ sources chunks).
    { apply Hsrc. cbn. split; [exact Hu|]. split; [exact Ht|]. now exists c. }
    destruct (List.find (fun s' => String.eqb u (source_uri s')) (rev (sources chunks)))
      as [s'|] eqn:Ef.
    + pose proof Ef as Ef'. apply find_some in Ef' as [_ Eu].
      apply String.eqb_eq in Eu. rewrite Eu in Ef |- *.
      apply list_elem_of_fmap_2. now apply uniqueSources_elem_of.
    + exfalso.
      pose proof (find_none _ _ Ef {| source_title := t; source_uri := u |}) as Ef'.
      cbn in Ef'. rewrite String.eqb_refl in Ef'.
      assert (true = false); [|discriminate].
      apply Ef'. apply list_elem_of_In. now apply (proj2 (elem_of_rev _ _)).
Qed.

(** X18. A list of sources whose uris are all different is returned as it
    is: same sources, same order. *)
Theorem uniqueSources_distinct (l : list Source) :
  NoDup (map source_uri l) -> uniqueSources l = l.
Proof.
  intros Hnd. unfold uniqueSources, Map_values, Map_new.
  rewrite Map_fold_fresh by (cbn [map app]; now rewrite keyed_keys).
  apply keyed_values.
Qed.

Lemma uniqueSources_distinct_witness :
  let l := [ {| source_title := "Corralón Norte"; source_uri := "https://a.example/" |};
             {| source_title := "Aceros Sur"; source_uri := "https://b.example/" |} ] in
  NoDup (map source_uri l) /\ uniqueSources l = l.
Proof.
  cbv zeta.
  assert (Hnd : NoDup (map source_uri
            [ {| source_title := "Corralón Norte"; source_uri := "https://a.example/" |};
              {| source_title := "Aceros Sur"; source_uri := "https://b.example/" |} ]))
    by (apply (bool_decide_unpack _); vm_compute; reflexivity).
  split; [exact Hnd|]. exact (uniqueSources_distinct _ Hnd).
Defined.

(** X19. Of several sources with the same uri the list keeps the last one,
    at the place of the first: a source is kept exactly when it is the
    first one with its uri in the list read from its end; sources that
    follow later in the response leave the uris kept so far where they
    are and add theirs behind; and removing duplicates a second time
    changes nothing. *)
Theorem uniqueSources_keeps_last (l : list Source) :
  (forall s, s ∈ uniqueSources l <->
     List.find (fun s' => String.eqb (source_uri s) (source_uri s')) (rev l) = Some s) /\
  (forall l', exists extra,
     map source_uri (uniqueSources (l ++ l')) =
       map source_uri (uniqueSources l) ++ extra) /\
  uniqueSources (uniqueSources l) = uniqueSources l.
Proof.
  split; [apply uniqueSources_elem_of|]. split.
  - intros l'. rewrite !uniqueSources_uris.
    unfold keyed, Map_new, Map_fold. rewrite map_app, fold_left_app.
    apply (Map_fold_keys (keyed l')).
  - assert (Hnd : NoDup (map source_uri (uniqueSources l)))
      by (rewrite uniqueSources_uris; apply (Map_fold_NoDup _ []), NoDup_nil_2).
    generalize dependent (uniqueSources l). intros u Hnd.
    unfold uniqueSources, Map_values, Map_new.
    rewrite Map_fold_fresh by (cbn [map app]; now rewrite keyed_keys).
    apply keyed_values.
Qed.

(** ** The exported texts *)

Lemma append_assoc (a b c : string) : (a +:+ b) +:+ c = a +:+ b +:+ c.
Proof.
  induction a as [|x a IH]; [reflexivity|].
  now rewrite !append_cons, IH.
Qed.

Lemma whatsappLine_fold {N} `{Number N} (toString toLocaleString : N -> string)
    (materials : list (MaterialItem N)) (text : string) (total : N) :
  fold_left (whatsappLine toString toLocaleString) materials (text, total) =
    (text +:+ materialLines toString toLocaleString materials,
     fold_left (fun acc curr => num_add acc (num_mul (quantity curr) (unitPrice curr)))
               materials total).
Proof.
  revert text total. induction materials as [|m l IH]; intros text total.
  - cbn [fold_left materialLines fold_right]. now rewrite append_empty_r.
  - cbn [fold_left materialLines fold_right]. unfold whatsappLine at 2.
    rewrite IH. f_equal. fold (materialLines toString toLocaleString l).
    now rewrite !append_assoc.
Qed.

(** X20. The message sent to WhatsApp ends with the total that the screen
    shows: it is a heading that does not depend on the materials, one line
    for each material in the order of the list, and the line of the total,
    whose amount is the text of [totalCost] of the list, the same number
    bit for bit in any arithmetic. *)
Theorem whatsappText_total {N} `{Number N} (toString toLocaleString : N -> string)
    (selectedSystem : ConstructionSystem) (location : string)
    (inputs : UserInputs N) :
  exists heading : string, forall materials : list (MaterialItem N),
    whatsappText toString toLocaleString selectedSystem location inputs materials =
      heading +:+ materialLines toString toLocaleString materials +:+ nl +:+
      "*TOTAL ESTIMADO: ARS $" +:+ toLocaleString (totalCost materials) +:+ "*".
Proof.
  eexists. intros materials. unfold whatsappText.
  rewrite whatsappLine_fold. fold (totalCost materials).
  rewrite append_assoc. reflexivity.
Qed.

(** X21. The name of the downloaded file has the first space of the name of
    the system replaced by an underscore, and no other: the names of the
    five systems are the five below, different from each other, and the
    name for the metal panels still holds a space. *)
Theorem downloadName_table (selectedSystem : ConstructionSystem) :
  downloadName selectedSystem =
    match selectedSystem with
    | TRADITIONAL => "presupuesto_Mampostería_(Ladrillos).txt"
    | SIP => "presupuesto_Paneles_SIP.txt"
    | STEEL_FRAME => "presupuesto_Steel_Frame.txt"
    | WOOD_FRAME => "presupuesto_Wood_Frame.txt"
    | METAL_PANEL => "presupuesto_Paneles_Termoaislantes Metálicos.txt"
    end /\
  includes (downloadName selectedSystem) " " =
    match selectedSystem with METAL_PANEL => true | _ => false end /\
  forall system', downloadName system' = downloadName selectedSystem ->
                  system' = selectedSystem.
Proof.
  split; [destruct selectedSystem; vm_compute; reflexivity|].
  split; [destruct selectedSystem; vm_compute; reflexivity|].
  intros system' E. destruct selectedSystem, system'; try reflexivity;
    vm_compute in E; discriminate E.
Qed.
